(** * parsl.app.errors: capture and replay of remote exceptions

    A shallow embedding of [src/parsl/app/errors.py]: the exception classes
    of the module, [RemoteExceptionWrapper] with its three methods and the
    decorator [wrap_error], over a small model of the Python objects they
    touch (exception objects with identity, living in a store). *)

From stdpp Require Import base option list strings gmap.
From Stdlib Require Import ZArith.
From Stdlib Require Import Ascii.
From stdpp Require Import pretty.

Local Open Scope Z_scope.
Local Open Scope nat_scope.

(** ** The Python objects the module manipulates *)

Module Py.

(** Object identity: two names are the same object iff they hold the
    same location. *)
Abbreviation loc := nat (only parsing).

(** Classes. The builtins the module meets, the classes declared in
    errors.py (lines 23-113), and classes declared elsewhere, given by
    name and base class. *)
Inductive pyclass : Type :=
| BaseException
| Exception
| KeyboardInterrupt
| SystemExit
| ArithmeticError
| ZeroDivisionError
| RuntimeError
| RecursionError
| OSError
| TypeError
| ValueError
| ParslError
| AppException
| AppBadFormatting
| BashExitFailure
| AppTimeout
| BashAppNoReturn
| MissingOutputs
| BadStdStreamFile
| UserClass (name : string) (base : pyclass).

#[global] Instance pyclass_eq_dec : EqDecision pyclass.
Proof. solve_decision. Defined.

(** Method resolution order (single inheritance): the class, then its
    bases up to [BaseException]. *)
Fixpoint mro (c : pyclass) : list pyclass :=
  match c with
  | BaseException => [BaseException]
  | Exception => [Exception; BaseException]
  | KeyboardInterrupt => [KeyboardInterrupt; BaseException]
  | SystemExit => [SystemExit; BaseException]
  | ArithmeticError => [ArithmeticError; Exception; BaseException]
  | ZeroDivisionError =>
      [ZeroDivisionError; ArithmeticError; Exception; BaseException]
  | RuntimeError => [RuntimeError; Exception; BaseException]
  | RecursionError =>
      [RecursionError; RuntimeError; Exception; BaseException]
  | OSError => [OSError; Exception; BaseException]
  | TypeError => [TypeError; Exception; BaseException]
  | ValueError => [ValueError; Exception; BaseException]
  (* class ParslError(Exception) *)
  | ParslError => [ParslError; Exception; BaseException]
  (* class AppException(ParslError) *)
  | AppException => [AppException; ParslError; Exception; BaseException]
  (* class AppBadFormatting(ParslError) *)
  | AppBadFormatting =>
      [AppBadFormatting; ParslError; Exception; BaseException]
  (* class BashExitFailure(AppException) *)
  | BashExitFailure =>
      [BashExitFailure; AppException; ParslError; Exception; BaseException]
  (* class AppTimeout(AppException) *)
  | AppTimeout =>
      [AppTimeout; AppException; ParslError; Exception; BaseException]
  (* class BashAppNoReturn(AppException) *)
  | BashAppNoReturn =>
      [BashAppNoReturn; AppException; ParslError; Exception; BaseException]
  (* class MissingOutputs(ParslError) *)
  | MissingOutputs => [MissingOutputs; ParslError; Exception; BaseException]
  (* class BadStdStreamFile(ParslError) *)
  | BadStdStreamFile =>
      [BadStdStreamFile; ParslError; Exception; BaseException]
  | UserClass _ base => c :: mro base
  end.

Definition issubclass (c d : pyclass) : bool := bool_decide (d ∈ mro c).

(** A traceback: the call sites active when the exception was raised.
    Tracebacks are compared by value; the entries the interpreter adds
    while an exception travels up the stack are not modelled. *)
Record frame : Type := Frame {
  co_filename : string;
  co_name : string;
  tb_lineno : Z
}.

#[global] Instance frame_eq_dec : EqDecision frame.
Proof. solve_decision. Defined.

Abbreviation TracebackType := (list frame) (only parsing).

End Py.

(** ** tblib: picklable tracebacks (third-party, only its interface) *)

Module tblib.

(** The picklable stand-in [tblib.Traceback] builds from a traceback. *)
Record Traceback : Type := mkTraceback { tb_entries : list Py.frame }.

(** A call into the library returns a value, or raises a new exception
    of some class with some message. *)
Inductive result (A : Type) : Type :=
| Ok (a : A)
| Raises (c : Py.pyclass) (msg : string).
Arguments Ok {A} a.
Arguments Raises {A} c msg.

End tblib.

(** ** The wrapper object (errors.py, class RemoteExceptionWrapper)

    Its four fields are assigned once, in [__init__], and only read by
    [reraise] and [get_exception]; it is therefore a value. The exception
    it stores is a reference into the store. *)
#[warnings="-register-all"]
Inductive RemoteExceptionWrapper : Type :=
  mkWrapper {
    e_type : Py.pyclass;
    e_value : Py.loc;
    e_traceback : option tblib.Traceback;
    cause : option RemoteExceptionWrapper
  }.

Module Store.
Import Py.

(** Values a work unit takes and returns ([Any] in the source). *)
#[warnings="-register-all"]
Inductive pyval : Type :=
| VNone
| VInt (z : Z)
| VStr (s : string)
| VFile (filepath : string)
| VList (items : list pyval)
| VExc (ref : loc)
| VHandle (fd : Z)
| VWrapper (w : RemoteExceptionWrapper).

(** An exception object: its class, the constructor arguments kept in
    [args], the attributes assigned by its [__init__], and the three
    slots of [BaseException] that the module reads or writes. *)
Record exn_obj : Type := ExnObj {
  cls : pyclass;
  args : list pyval;
  attrs : list (string * pyval);
  __cause__ : option loc;
  __context__ : option loc;
  __traceback__ : option TracebackType
}.

(** One record of the module logger. *)
Inductive log_record : Type :=
| Debug (fmt : string) (arg : pyclass).

Record state : Type := State {
  heap : gmap loc exn_obj;
  log : list log_record
}.

(** What running a piece of code yields: a value, an exception in
    flight (a reference to the raised object), and the store afterwards.
    [OutOfFuel] is a run that does not end (a work unit may loop; the
    methods of the module never give it); [Dangling] is a read through a
    reference that names no object, which no Python state contains. *)
Inductive outcome (A : Type) : Type :=
| Returned (a : A) (s : state)
| Raised (exc : loc) (s : state)
| OutOfFuel
| Dangling.
Arguments Returned {A} a s.
Arguments Raised {A} exc s.
Arguments OutOfFuel {A}.
Arguments Dangling {A}.

Definition M (A : Type) : Type := state → outcome A.

#[global] Instance M_ret : MRet M := λ A a s, Returned a s.

#[global] Instance M_bind : MBind M := λ A B k m s,
  match m s with
  | Returned a s' => k a s'
  | Raised e s' => Raised e s'
  | OutOfFuel => OutOfFuel
  | Dangling => Dangling
  end.

(** [raise e]. The exception in flight is the object [e] itself. The
    frames the interpreter adds to [e.__traceback__] while [e] unwinds are
    left out: after a raise the slot stands for the traceback as it was
    last assigned, and statements about it are up to those frames. *)
Definition raise {A} (e : loc) : M A := λ s, Raised e s.

(** Reading an object through a reference. *)
Definition deref (l : loc) : M exn_obj := λ s,
  match heap s !! l with
  | Some o => Returned o s
  | None => Dangling
  end.

Definition update (l : loc) (f : exn_obj → exn_obj) : M unit := λ s,
  match heap s !! l with
  | Some o => Returned () (State (<[l := f o]> (heap s)) (log s))
  | None => Dangling
  end.

(** [e.__cause__ = c]. (The assignment also sets [__suppress_context__],
    a flag the module never reads and the model leaves out.) *)
Definition set___cause__ (l : loc) (c : option loc) : M unit :=
  update l (λ o, ExnObj (cls o) (args o) (attrs o)
                        c (__context__ o) (__traceback__ o)).

(** [e.with_traceback(tb)]: sets [__traceback__] and returns [e]. *)
Definition with_traceback (l : loc) (tb : option TracebackType) : M loc :=
  update l (λ o, ExnObj (cls o) (args o) (attrs o)
                        (__cause__ o) (__context__ o) tb);;
  mret l.

(** [C(...)]: a new object, at a location no object occupies. *)
Definition alloc (o : exn_obj) : M loc := λ s,
  let l := fresh (dom (heap s)) in
  Returned l (State (<[l := o]> (heap s)) (log s)).

(** [raise C(msg)] *)
Definition raise_new {A} (c : pyclass) (msg : string) : M A :=
  e ← alloc (ExnObj c [VStr msg] [] None None None); raise e.

(** [logger.debug(fmt.format(arg))] *)
Definition logger_debug (fmt : string) (arg : pyclass) : M unit := λ s,
  Returned () (State (heap s) (log s ++ [Debug fmt arg])).

(** [isinstance(e, C)] *)
Definition isinstance (s : state) (l : loc) (c : pyclass) : bool :=
  match heap s !! l with
  | Some o => issubclass (cls o) c
  | None => false
  end.

End Store.

(** ** six.reraise (third-party; its Python 3 definition)

    [if value.__traceback__ is not tb: raise value.with_traceback(tb)]
    [raise value]

    Both branches end in [raise], so what holds of [__traceback__] after
    it holds up to the frames of unwinding, as for [raise]. *)
Module six.
Import Py Store.

Definition reraise (tp : pyclass) (value : loc)
    (tb : option TracebackType) : M unit :=
  o ← deref value;
  if decide (__traceback__ o = tb) then raise value
  else v ← with_traceback value tb; raise v.

End six.

(** ** parsl/app/errors.py *)

Module errors.
Import Py Store.

(** *** The exception classes: what their constructors store *)

Definition new (c : pyclass) (a : list pyval)
    (fields : list (string * pyval)) : exn_obj :=
  ExnObj c a fields None None None.

(** [ParslError], [AppException], [AppBadFormatting] and [AppTimeout]
    declare no [__init__]: the arguments go to [args]. *)
Definition ParslError_new (a : list pyval) : exn_obj := new ParslError a [].
Definition AppException_new (a : list pyval) : exn_obj :=
  new AppException a [].
Definition AppBadFormatting_new (a : list pyval) : exn_obj :=
  new AppBadFormatting a [].
Definition AppTimeout_new (a : list pyval) : exn_obj := new AppTimeout a [].

(** [BashExitFailure.__init__(self, app_name, exitcode)]: it sets the two
    attributes and does not call the base [__init__]; [args] is filled by
    [BaseException.__new__]. *)
Definition BashExitFailure_new (app_name : string) (exitcode : Z)
    : exn_obj :=
  new BashExitFailure [VStr app_name; VInt exitcode]
      [("app_name", VStr app_name); ("exitcode", VInt exitcode)]%string.

(** [BashAppNoReturn.__init__(self, reason)] *)
Definition BashAppNoReturn_new (reason : string) : exn_obj :=
  new BashAppNoReturn [VStr reason] [("reason", VStr reason)]%string.

(** [MissingOutputs.__init__(self, reason, outputs)] *)
Definition MissingOutputs_new (reason : string) (outputs : list string)
    : exn_obj :=
  new MissingOutputs [VStr reason; VList (VFile <$> outputs)]
      [("reason", VStr reason);
       ("outputs", VList (VFile <$> outputs))]%string.

(** [BadStdStreamFile.__init__(self, reason, exception)] *)
Definition BadStdStreamFile_new (reason : string) (exception : loc)
    : exn_obj :=
  new BadStdStreamFile [VStr reason; VExc exception]
      [("_reason", VStr reason); ("_exception", VExc exception)]%string.

(** *** class RemoteExceptionWrapper *)

Section Wrapper.

(** [tblib.Traceback(tb)] and [Traceback.as_traceback()]. *)
Variable Traceback : TracebackType → tblib.result tblib.Traceback.
Variable as_traceback : tblib.Traceback → tblib.result TracebackType.

Definition call {A} (r : tblib.result A) : M A :=
  match r with
  | tblib.Ok a => mret a
  | tblib.Raises c msg => raise_new c msg
  end.

(** [RemoteExceptionWrapper.__init__] (lines 116-125). The recursion
    follows [__cause__] through the store, where a chain may be of any
    length and may loop. [fuel] is the depth of recursion the interpreter
    has left, counted in calls of [__init__]: with none left the call of
    line 125 (or the first call) raises [RecursionError], as the
    interpreter does. [type(cause)] and [cause.__traceback__] are read off
    the object [cause] names. *)
Fixpoint __init__ (fuel : nat) (e_type : pyclass) (e_value : loc)
    (traceback : option TracebackType) : M RemoteExceptionWrapper :=
  match fuel with
  | O => raise_new RecursionError "maximum recursion depth exceeded"
  | S fuel =>
      e_traceback ← match traceback with
                     | None => mret None
                     | Some tb => t ← call (Traceback tb); mret (Some t)
                     end;
      v ← deref e_value;
      match __cause__ v with
      | None => mret (mkWrapper e_type e_value e_traceback None)
      | Some cause =>
          c ← deref cause;
          w ← __init__ fuel (cls c) cause (__traceback__ c);
          mret (mkWrapper e_type e_value e_traceback (Some w))
      end
  end.

(** [RemoteExceptionWrapper.get_exception] (lines 141-149). *)
Fixpoint get_exception (self : RemoteExceptionWrapper) : M loc :=
  match self with
  | mkWrapper _ v e_tb c =>
      match c with
      | Some c => x ← get_exception c; set___cause__ v (Some x)
      | None => mret ()
      end;;
      match e_tb with
      | Some t => tb ← call (as_traceback t); with_traceback v (Some tb)
      | None => mret v
      end
  end.

(** [RemoteExceptionWrapper.reraise] (lines 127-139). *)
Definition reraise (self : RemoteExceptionWrapper) : M unit :=
  let t := e_type self in
  logger_debug "Reraising exception of type {}" (e_type self);;
  v ← get_exception self;
  o ← deref v;
  six.reraise t v (__traceback__ o).

(** *** wrap_error (lines 161-171)

    [functools.wraps] copies the name and docstring of [func] and does
    not change what the wrapper computes. *)

Definition work_unit : Type := list pyval → list (string * pyval) → M pyval.

Definition wrap_error (fuel : nat) (func : work_unit) : work_unit :=
  λ a kw s,
    match func a kw s with
    | Raised e s' =>
        (* except Exception: *)
        if isinstance s' e Exception then
          (* return RemoteExceptionWrapper of sys.exc_info(), that is of
             type(e), e and e.__traceback__ *)
          (o ← deref e;
           w ← __init__ fuel (cls o) e (__traceback__ o);
           mret (VWrapper w)) s'
        else Raised e s'
    | r => r
    end.

End Wrapper.

End errors.

(** ** Vocabulary of the statements *)

Import Py Store errors.

Definition succeeds {A} (r : tblib.result A) : bool :=
  match r with
  | tblib.Ok _ => true
  | tblib.Raises _ _ => false
  end.

(** The wrapper and the wrappers of its causes, outermost first. *)
Fixpoint links (w : RemoteExceptionWrapper) : list RemoteExceptionWrapper :=
  match w with
  | mkWrapper _ _ _ c =>
      w :: match c with
           | Some c => links c
           | None => []
           end
  end.

(** Slots of the object a reference names, if it names one. *)
Definition cause_at (h : gmap loc exn_obj) (e : loc) : option (option loc) :=
  __cause__ <$> h !! e.

Definition class_at (h : gmap loc exn_obj) (e : loc) : option pyclass :=
  cls <$> h !! e.

Definition args_at (h : gmap loc exn_obj) (e : loc) : option (list pyval) :=
  args <$> h !! e.

Definition tb_at (h : gmap loc exn_obj) (e : loc) : option TracebackType :=
  o ← h !! e; __traceback__ o.

(** [has_chain h e causes]: following [__cause__] from [e] visits exactly
    [causes], in this order, and then meets [None]. A chain that loops
    has no such list. *)
Fixpoint has_chain (h : gmap loc exn_obj) (e : loc) (causes : list loc)
    : bool :=
  match causes with
  | [] => bool_decide (cause_at h e = Some None)
  | c :: cs => bool_decide (cause_at h e = Some (Some c)) && has_chain h c cs
  end.

(** Every [__cause__] of the store names an object of the store. *)
Definition closed (h : gmap loc exn_obj) : bool :=
  forallb (λ p, match __cause__ p.2 with
                | Some c => bool_decide (is_Some (h !! c))
                | None => true
                end) (map_to_list h).

(** Every exception a wrapper chain stores is an object of the store. *)
Definition well_formed (h : gmap loc exn_obj) (w : RemoteExceptionWrapper)
    : bool :=
  forallb (λ k, bool_decide (is_Some (h !! e_value k))) (links w).

(** No link of the chain carries a traceback token. *)
Definition token_free (w : RemoteExceptionWrapper) : bool :=
  forallb (λ k, bool_decide (e_traceback k = None)) (links w).

(** Two stores hold the same objects as far as [f] can tell. *)
Definition agree {X} (f : exn_obj → X) (h h' : gmap loc exn_obj) : Prop :=
  ∀ l, f <$> h !! l = f <$> h' !! l.

(** What an exception is and says: all of it but the two slots replay
    writes. *)
Definition payload (o : exn_obj)
    : pyclass * list pyval * list (string * pyval) * option loc :=
  (cls o, args o, attrs o, __context__ o).

Definition forget_tb (o : exn_obj) : exn_obj :=
  ExnObj (cls o) (args o) (attrs o) (__cause__ o) (__context__ o) None.

(** The state [reraise] hands to [get_exception]: the type is logged
    first. *)
Definition logged (w : RemoteExceptionWrapper) (s : state) : state :=
  State (heap s)
        (log s ++ [Debug "Reraising exception of type {}" (e_type w)]).

(** The classes errors.py declares. *)
Definition module_classes : list pyclass :=
  [ParslError; AppException; AppBadFormatting; BashExitFailure; AppTimeout;
   BashAppNoReturn; MissingOutputs; BadStdStreamFile].

(** ** Concrete runs *)

Module Examples.

(** A tblib that keeps the entries of the traceback and gives them back. *)
Definition Traceback (tb : TracebackType) : tblib.result tblib.Traceback :=
  tblib.Ok (tblib.mkTraceback tb).

Definition as_traceback (t : tblib.Traceback) : tblib.result TracebackType :=
  tblib.Ok (tblib.tb_entries t).

(** A tblib whose constructor raises on every traceback. *)
Definition Traceback_raising (tb : TracebackType)
    : tblib.result tblib.Traceback :=
  tblib.Raises TypeError "traceback not representable".

Definition s0 : state := State ∅ [].

Definition at_line (n : Z) : option TracebackType :=
  Some [Frame "app.py" "work" n].

(** [def work(): return 42] *)
Definition returns_42 : work_unit := λ _ _, mret (VInt 42).

(** [def work(): return 1/0] *)
Definition division_by_zero : exn_obj :=
  ExnObj ZeroDivisionError [VStr "division by zero"] [] None None (at_line 3).

Definition div0 : work_unit := λ _ _, e ← alloc division_by_zero; raise e.

(** [def work(): raise BashExitFailure("echo", 2)] *)
Definition exit_2 : exn_obj :=
  ExnObj BashExitFailure (args (BashExitFailure_new "echo" 2))
         (attrs (BashExitFailure_new "echo" 2)) None None (at_line 5).

Definition bash_exit : work_unit := λ _ _, e ← alloc exit_2; raise e.

(** [def work(): raise KeyboardInterrupt()] *)
Definition interrupt : exn_obj :=
  ExnObj KeyboardInterrupt [] [] None None (at_line 2).

Definition interrupted : work_unit := λ _ _, e ← alloc interrupt; raise e.

(** [def work(): raise AppException(open("/dev/null"))]: the payload is
    an open file. *)
Definition holds_handle : exn_obj :=
  ExnObj AppException [VHandle 3] [] None None (at_line 2).

Definition handle_payload : work_unit := λ _ _,
  e ← alloc holds_handle; raise e.

(** A raised from B raised from C:
    [try: ... raise OSError("disk")]
    [except OSError as c: raise ValueError("bad") from c], and around it
    [except ValueError as b: raise AppException("failed") from b]. *)
Definition exn_C : exn_obj :=
  ExnObj OSError [VStr "disk"] [] None None (at_line 4).

Definition exn_B (c : loc) : exn_obj :=
  ExnObj ValueError [VStr "bad"] [] (Some c) (Some c) (at_line 6).

Definition exn_A (b : loc) : exn_obj :=
  ExnObj AppException [VStr "failed"] [] (Some b) (Some b) (at_line 8).

Definition chained3 : work_unit := λ _ _,
  c ← alloc exn_C; b ← alloc (exn_B c); a ← alloc (exn_A b); raise a.

(** [raise AppTimeout("late") from OSError("never raised")]: the cause
    was built and never raised, so it has no traceback. *)
Definition never_raised : exn_obj :=
  ExnObj OSError [VStr "never raised"] [] None None None.

Definition late (c : loc) : exn_obj :=
  ExnObj AppTimeout [VStr "late"] [] (Some c) None (at_line 2).

Definition cause_never_raised : work_unit := λ _ _,
  c ← alloc never_raised; a ← alloc (late c); raise a.

(** [try: raise OSError("disk")]
    [except OSError: raise ValueError("bad")]: the second exception has a
    context and no cause. *)
Definition in_handler (c : loc) : exn_obj :=
  ExnObj ValueError [VStr "bad"] [] None (Some c) (at_line 6).

Definition while_handling : work_unit := λ _ _,
  c ← alloc exn_C; b ← alloc (in_handler c); raise b.

(** [a = ValueError("a"); b = ValueError("b")]
    [a.__cause__ = b; b.__cause__ = a; raise a] *)
Definition cyclic : work_unit := λ _ _,
  a ← alloc (ExnObj ValueError [VStr "a"] [] None None None);
  b ← alloc (ExnObj ValueError [VStr "b"] [] None None None);
  set___cause__ a (Some b);;
  set___cause__ b (Some a);;
  with_traceback a (at_line 5);;
  raise a.

(** An exception over [n] causes, each raised from the next. *)
Definition layer (c : loc) : exn_obj :=
  ExnObj AppException [VStr "layer"] [] (Some c) (Some c) None.

Fixpoint deep (n : nat) : M loc :=
  match n with
  | O => alloc never_raised
  | S n => c ← deep n; alloc (layer c)
  end.

Definition deep_unit (n : nat) : work_unit := λ _ _, e ← deep n; raise e.

(** The exception a unit raised, and the state it left. *)
Definition raised_by (u : work_unit) : loc :=
  match u [] [] s0 with
  | Raised e _ => e
  | _ => 0
  end.

Definition state_after (u : work_unit) : state :=
  match u [] [] s0 with
  | Returned _ s | Raised _ s => s
  | _ => s0
  end.

(** A wrapper as the submitting side receives it: the unpickled exception
    has neither cause nor traceback, the wrapper carries both. *)
Definition unpickled : exn_obj :=
  ExnObj ZeroDivisionError [VStr "division by zero"] [] None None None.

Definition received_state : state := State {[ 0 := unpickled ]} [].

Definition received : RemoteExceptionWrapper :=
  mkWrapper ZeroDivisionError 0
            (Some (tblib.mkTraceback [Frame "app.py" "work" 3])) None.

Definition received_no_token : RemoteExceptionWrapper :=
  mkWrapper ZeroDivisionError 0 None None.

(** A class the worker declared and this module does not. *)
Definition WorkerOnlyError : pyclass := UserClass "WorkerOnlyError" Exception.

Definition worker_only_state : state :=
  State {[ 0 := ExnObj WorkerOnlyError [VStr "boom"] [] None None None ]} [].

Definition worker_only : RemoteExceptionWrapper :=
  mkWrapper WorkerOnlyError 0 None None.

End Examples.

(** ** The exception classes of errors.py: calling them, printing them *)

Module classes.
Import Py Store errors.

(** Binding the arguments of a call to the parameters [names] of an
    [__init__] ([self] apart, none with a default): the positional ones
    first, then every remaining parameter by its keyword. [None] is the
    [TypeError] of a call that does not fit: too many positional
    arguments, a parameter missing or given twice, a keyword that names
    no parameter. *)
Definition bind_params (names : list string) (a : list pyval)
    (kw : gmap string pyval) : option (list pyval) :=
  let rest := drop (length a) names in
  if bool_decide (length a ≤ length names ∧ dom kw = list_to_set rest)
  then vs ← mapM (λ n, kw !! n) rest; Some (a ++ vs)
  else None.

(** What the call [C( *a, **kw)] gives for a class of the module: the new
    object, or a [TypeError]. [BaseException.__new__] keeps the positional
    arguments in [args]; [BaseException.__init__], which the classes
    without [__init__] inherit and which [super().__init__(...)] calls,
    takes no keyword and sets [args] to what it is given. *)
Inductive call_result : Type :=
| Built (o : exn_obj)
| ArgumentError
| NotInModule.

Definition construct (c : pyclass) (a : list pyval) (kw : gmap string pyval)
    : call_result :=
  match c with
  | ParslError | AppException | AppBadFormatting | AppTimeout =>
      if bool_decide (dom kw = ∅) then Built (new c a []) else ArgumentError
  | BashExitFailure =>
      (* def __init__(self, app_name, exitcode):
           self.app_name = app_name; self.exitcode = exitcode *)
      match bind_params ["app_name"; "exitcode"]%string a kw with
      | Some [app_name; exitcode] =>
          Built (new c a [("app_name", app_name);
                          ("exitcode", exitcode)]%string)
      | _ => ArgumentError
      end
  | BashAppNoReturn =>
      (* def __init__(self, reason):
           super().__init__(reason); self.reason = reason *)
      match bind_params ["reason"]%string a kw with
      | Some [reason] => Built (new c [reason] [("reason", reason)]%string)
      | _ => ArgumentError
      end
  | MissingOutputs =>
      (* def __init__(self, reason, outputs):
           super().__init__(reason, outputs)
           self.reason = reason; self.outputs = outputs *)
      match bind_params ["reason"; "outputs"]%string a kw with
      | Some [reason; outputs] =>
          Built (new c [reason; outputs]
                     [("reason", reason); ("outputs", outputs)]%string)
      | _ => ArgumentError
      end
  | BadStdStreamFile =>
      (* def __init__(self, reason, exception):
           super().__init__(reason, exception)
           self._reason = reason; self._exception = exception *)
      match bind_params ["reason"; "exception"]%string a kw with
      | Some [reason; exception] =>
          Built (new c [reason; exception]
                     [("_reason", reason); ("_exception", exception)]%string)
      | _ => ArgumentError
      end
  | _ => NotInModule
  end.

(** [self.name] *)
Fixpoint getattr (fields : list (string * pyval)) (name : string)
    : option pyval :=
  match fields with
  | [] => None
  | (n, v) :: fields => if decide (n = name) then Some v else getattr fields name
  end.

(** [str(v)], as an f-string field renders it, for the values whose
    rendering the language fixes: a string is itself, an int is written
    in decimal. *)
Definition str (v : pyval) : option string :=
  match v with
  | VStr s => Some s
  | VInt z => Some (pretty z)
  | _ => None
  end.

(** [BashExitFailure.__str__] (lines 54-55). [None] when an attribute is
    missing or is a value [str] above does not cover. *)
Definition BashExitFailure___str__ (self : exn_obj) : option string :=
  app_name ← getattr (attrs self) "app_name" ≫= str;
  exitcode ← getattr (attrs self) "exitcode" ≫= str;
  Some ("bash_app " +:+ app_name +:+ " failed with unix exit code " +:+
        exitcode).

End classes.

(** ** More concrete runs *)

Module MoreExamples.
Import Examples.

(** A tblib whose decoder raises on every token. *)
Definition as_traceback_raising (t : tblib.Traceback)
    : tblib.result TracebackType :=
  tblib.Raises ValueError "token not decodable".

Definition token (n : Z) : option tblib.Traceback :=
  Some (tblib.mkTraceback [Frame "app.py" "work" n]).

(** What the submitting side holds after transport of the chain of
    [chained3]: three unpickled exceptions, without cause or traceback,
    and the chain of wrappers that names them. Object 3 is an exception
    of the submitting side's own. *)
Definition received_chain_state : state :=
  State {[ 0 := ExnObj AppException [VStr "failed"] [] None None None;
           1 := ExnObj ValueError [VStr "bad"] [] None None None;
           2 := ExnObj OSError [VStr "disk"] [] None None None;
           3 := division_by_zero ]} [].

Definition received_chain : RemoteExceptionWrapper :=
  mkWrapper AppException 0 (token 8)
    (Some (mkWrapper ValueError 1 (token 6)
       (Some (mkWrapper OSError 2 None None)))).

(** What the submitting side holds after transport of the exceptions of
    [chained3], under the names the worker gave them: the classes and
    arguments are the worker's, every cause, context and traceback is
    gone. *)
Definition submitting_side : state :=
  State {[ 0 := ExnObj OSError [VStr "disk"] [] None None None;
           1 := ExnObj ValueError [VStr "bad"] [] None None None;
           2 := ExnObj AppException [VStr "failed"] [] None None None ]} [].

(** The state a replay leaves. *)
Definition replay_state (decode : tblib.Traceback → tblib.result TracebackType)
    (w : RemoteExceptionWrapper) (s : state) : state :=
  match reraise decode w s with
  | Raised _ s' => s'
  | _ => s
  end.

Definition replay_raises (decode : tblib.Traceback → tblib.result TracebackType)
    (w : RemoteExceptionWrapper) (s : state) : loc :=
  match reraise decode w s with
  | Raised x _ => x
  | _ => 0
  end.

(** [class WalltimeExceeded(AppTimeout)], declared by a user of the
    module. *)
Definition WalltimeExceeded : pyclass :=
  UserClass "WalltimeExceeded" AppTimeout.

Definition walltime_state : state :=
  State {[ 0 := ExnObj WalltimeExceeded [VStr "60 s"] [] None None None ]} [].

(** [BashAppNoReturn(reason="no output")] and
    [BashExitFailure(app_name="echo", exitcode=2)] *)
Definition by_keyword_reason : gmap string pyval :=
  {[ "reason"%string := VStr "no output" ]}.

Definition by_keyword_exit : gmap string pyval :=
  {[ "app_name"%string := VStr "echo"; "exitcode"%string := VInt 2 ]}.

End MoreExamples.

(** ** Capture and replay, relative to tblib *)

Section Correctness.

Variable Traceback : TracebackType → tblib.result tblib.Traceback.
Variable as_traceback : tblib.Traceback → tblib.result TracebackType.

(** [tblib.Traceback] builds a token from this traceback; with no
    traceback there is no call to fail. *)
Definition accepts (tb : option TracebackType) : bool :=
  match tb with
  | None => true
  | Some t => succeeds (Traceback t)
  end.

(** [as_traceback] decodes this token; with no token there is no call. *)
Definition decodes (tok : option tblib.Traceback) : bool :=
  match tok with
  | None => true
  | Some k => succeeds (as_traceback k)
  end.

(** tblib takes this traceback through both steps. *)
Definition carries (tb : option TracebackType) : bool :=
  match tb with
  | None => true
  | Some t =>
      match Traceback t with
      | tblib.Ok k => succeeds (as_traceback k)
      | tblib.Raises _ _ => false
      end
  end.

Definition all_accepted (h : gmap loc exn_obj) (es : list loc) : bool :=
  forallb (λ e, accepts (tb_at h e)) es.

Definition all_carried (h : gmap loc exn_obj) (es : list loc) : bool :=
  forallb (λ e, carries (tb_at h e)) es.

(** tblib accepts the traceback of every object of the store. *)
Definition store_accepted (h : gmap loc exn_obj) : bool :=
  forallb (λ p, accepts (__traceback__ p.2)) (map_to_list h).

Definition decodable (w : RemoteExceptionWrapper) : bool :=
  forallb (λ k, decodes (e_traceback k)) (links w).

(** [tok] is what line 120 stores for the traceback [tb]. *)
Definition token_of (tb : option TracebackType)
    (tok : option tblib.Traceback) : Prop :=
  match tb, tok with
  | None, None => True
  | Some t, Some k => Traceback t = tblib.Ok k
  | _, _ => False
  end.

(** The wrapper [link] is the snapshot of the exception [e]. *)
Definition captures (h : gmap loc exn_obj) (link : RemoteExceptionWrapper)
    (e : loc) : Prop :=
  e_value link = e ∧ class_at h e = Some (e_type link) ∧
  token_of (tb_at h e) (e_traceback link).

(** Lines 145-149 of [get_exception], for the value [v] and token [k]. *)
Definition attach (v : loc) (k : option tblib.Traceback) : M loc :=
  match k with
  | Some t => tb ← call (as_traceback t); with_traceback v (Some tb)
  | None => mret v
  end.

(** *** Stores that agree *)

Lemma agree_refl {X} (f : exn_obj → X) h : agree f h h.
Proof. done. Qed.

Lemma agree_trans {X} (f : exn_obj → X) h1 h2 h3 :
  agree f h1 h2 → agree f h2 h3 → agree f h1 h3.
Proof. intros H1 H2 l. by rewrite H1. Qed.

Lemma agree_insert {X} (f : exn_obj → X) h l o o' :
  h !! l = Some o → f o' = f o → agree f h (<[l := o']> h).
Proof.
  intros Hl Hf l'. destruct (decide (l = l')) as [<-|Hne].
  - rewrite lookup_insert_eq, Hl. simpl. by rewrite Hf.
  - by rewrite lookup_insert_ne.
Qed.

Lemma agree_is_Some {X} (f : exn_obj → X) h h' l :
  agree f h h' → is_Some (h !! l) ↔ is_Some (h' !! l).
Proof.
  intros Ha. specialize (Ha l). rewrite <- !(fmap_is_Some f). by rewrite Ha.
Qed.


Lemma agree_weaken {X Y} (f : exn_obj → X) (g : X → Y) h h' :
  agree f h h' → agree (g ∘ f) h h'.
Proof.
  intros H l. specialize (H l).
  destruct (h !! l), (h' !! l); simplify_eq/=; congruence.
Qed.

Lemma agree_payload h h' : agree forget_tb h h' → agree payload h h'.
Proof. intros H. apply (agree_weaken _ payload) in H. exact H. Qed.

Lemma agree_cause h h' e : agree forget_tb h h' → cause_at h e = cause_at h' e.
Proof. intros H. apply (agree_weaken _ __cause__) in H. apply H. Qed.

Lemma agree_class h h' e : agree payload h h' → class_at h e = class_at h' e.
Proof. intros H. apply (agree_weaken _ (λ p, p.1.1.1)) in H. apply H. Qed.

Lemma agree_args h h' e : agree payload h h' → args_at h e = args_at h' e.
Proof. intros H. apply (agree_weaken _ (λ p, p.1.1.2)) in H. apply H. Qed.

Lemma well_formed_agree {X} (f : exn_obj → X) h h' w :
  agree f h h' → well_formed h w = true → well_formed h' w = true.
Proof.
  unfold well_formed. intros Ha. rewrite !forallb_forall.
  intros H k Hk. apply bool_decide_eq_true. specialize (H k Hk).
  apply bool_decide_eq_true in H. by apply (agree_is_Some f h h').
Qed.

(** *** Cause chains in the store *)

Lemma has_chain_nil h e :
  has_chain h e [] = true → ∃ o, h !! e = Some o ∧ __cause__ o = None.
Proof.
  simpl. intros H%bool_decide_eq_true. unfold cause_at in H.
  destruct (h !! e) as [o|] eqn:E; simplify_eq/=. eauto.
Qed.

Lemma has_chain_cons h e c cs :
  has_chain h e (c :: cs) = true →
  ∃ o, h !! e = Some o ∧ __cause__ o = Some c ∧ has_chain h c cs = true.
Proof.
  simpl. intros [H Hc]%andb_true_iff. apply bool_decide_eq_true in H.
  unfold cause_at in H. destruct (h !! e) as [o|] eqn:E; simplify_eq/=. eauto.
Qed.

Lemma has_chain_end h e o :
  h !! e = Some o → __cause__ o = None → has_chain h e [] = true.
Proof.
  intros Ho Hc. apply bool_decide_eq_true_2. unfold cause_at.
  by rewrite Ho, <- Hc.
Qed.

Lemma has_chain_step h e o c cs :
  h !! e = Some o → __cause__ o = Some c → has_chain h c cs = true →
  has_chain h e (c :: cs) = true.
Proof.
  intros Ho Hc Hcs. simpl. rewrite Hcs, andb_true_r.
  apply bool_decide_eq_true_2. unfold cause_at. by rewrite Ho, <- Hc.
Qed.

Lemma has_chain_lookup h e cs : has_chain h e cs = true → is_Some (h !! e).
Proof.
  destruct cs;
    [intros (o & -> & _)%has_chain_nil | intros (o & -> & _)%has_chain_cons];
    eauto.
Qed.

Lemma has_chain_agree h h' cs : ∀ e,
  agree forget_tb h h' → has_chain h e cs = has_chain h' e cs.
Proof.
  induction cs as [|c cs IH]; intros e H; simpl.
  - by rewrite (agree_cause h h' e H).
  - by rewrite (agree_cause h h' e H), (IH c H).
Qed.

(** A chain that ends visits no object twice: a store with a loop of
    causes has no chain through it. *)
Lemma has_chain_functional h cs : ∀ e cs',
  has_chain h e cs = true → has_chain h e cs' = true → cs = cs'.
Proof.
  induction cs as [|c cs IH]; intros e [|c' cs'] H H'; try done.
  - apply has_chain_nil in H as (o & Ho & Hc).
    apply has_chain_cons in H' as (o' & Ho' & Hc' & _). congruence.
  - apply has_chain_cons in H as (o & Ho & Hc & _).
    apply has_chain_nil in H' as (o' & Ho' & Hc'). congruence.
  - apply has_chain_cons in H as (o & Ho & Hc & H).
    apply has_chain_cons in H' as (o' & Ho' & Hc' & H').
    assert (c = c') as <- by congruence. f_equal. eauto.
Qed.

(** *** Wrapper chains *)

Lemma wrapper_ind' (P : RemoteExceptionWrapper → Prop) :
  (∀ t v k, P (mkWrapper t v k None)) →
  (∀ t v k c, P c → P (mkWrapper t v k (Some c))) →
  ∀ w, P w.
Proof.
  intros Hleaf Hnode. fix IH 1. intros [t v k [c|]].
  - apply Hnode, IH.
  - apply Hleaf.
Qed.

Lemma links_nonempty w : links w ≠ [].
Proof. by destruct w. Qed.

Lemma links_head w : links w = w :: tail (links w).
Proof. by destruct w. Qed.

Lemma captures_values h ws es :
  Forall2 (captures h) ws es → e_value <$> ws = es.
Proof.
  induction 1 as [|w e ws es (Hv & _) _ IH]; [done|].
  rewrite fmap_cons. by f_equal.
Qed.

Lemma captures_kinds h ws es :
  Forall2 (captures h) ws es →
  Some <$> (e_type <$> ws) = class_at h <$> es.
Proof.
  induction 1 as [|w e ws es (_ & Hc & _) _ IH]; [done|].
  rewrite !fmap_cons. by f_equal.
Qed.

Lemma captures_decodable h ws es :
  Forall2 (captures h) ws es → all_carried h es = true →
  forallb (λ k, decodes (e_traceback k)) ws = true.
Proof.
  unfold all_carried.
  induction 1 as [|w e ws es (_ & _ & Htok) _ IH]; [done|]. simpl.
  intros [Hc Hcs]%andb_true_iff. rewrite (IH Hcs), andb_true_r.
  unfold token_of in Htok. unfold carries in Hc.
  destruct (tb_at h e) as [t|], (e_traceback w) as [k|]; try done.
  by rewrite Htok in Hc.
Qed.

Lemma carries_accepts tb : carries tb = true → accepts tb = true.
Proof.
  destruct tb as [t|]; [|done]. simpl. by destruct (Traceback t).
Qed.

Lemma all_carried_accepted h es :
  all_carried h es = true → all_accepted h es = true.
Proof.
  unfold all_carried, all_accepted. rewrite !forallb_forall.
  intros H e He. apply carries_accepts. auto.
Qed.

(** *** Running the code *)

(** A new object never takes the place of an existing one. *)
Lemma alloc_fresh o s :
  ∃ l, alloc o s = Returned l (State (<[l := o]> (heap s)) (log s)) ∧
       heap s !! l = None.
Proof.
  eexists. split; [reflexivity|].
  apply not_elem_of_dom, is_fresh.
Qed.

Lemma bind_run {A B} (m : M A) (k : A → M B) s :
  (m ≫= k) s = match m s with
               | Returned a s' => k a s'
               | Raised e s' => Raised e s'
               | OutOfFuel => OutOfFuel
               | Dangling => Dangling
               end.
Proof. reflexivity. Qed.

Lemma update_run l f s o :
  heap s !! l = Some o →
  update l f s = Returned () (State (<[l := f o]> (heap s)) (log s)).
Proof. intros H. unfold update. by rewrite H. Qed.

Lemma with_traceback_run v tb s o :
  heap s !! v = Some o →
  with_traceback v tb s =
  Returned v (State (<[v := ExnObj (cls o) (args o) (attrs o) (__cause__ o)
                                   (__context__ o) tb]> (heap s)) (log s)).
Proof.
  intros Ho. unfold with_traceback. by rewrite bind_run, (update_run _ _ _ o).
Qed.

(** Line 120. *)
Lemma accepts_token tb s :
  accepts tb = true →
  ∃ tok, (match tb with
          | None => mret None
          | Some t => k ← call (Traceback t); mret (Some k)
          end : M _) s = Returned tok s ∧ token_of tb tok.
Proof.
  destruct tb as [t|]; simpl.
  - unfold succeeds. destruct (Traceback t) as [k|] eqn:E; [|done]. intros _.
    by exists (Some k).
  - intros _. by exists None.
Qed.

Lemma refused_token t s :
  succeeds (Traceback t) = false →
  ∃ e s', (k ← call (Traceback t); mret (Some k) : M _) s = Raised e s'.
Proof.
  unfold succeeds. destruct (Traceback t) as [k|c msg] eqn:E; [done|].
  intros _. do 2 eexists. reflexivity.
Qed.

(** [__init__] on a chain that ends: one wrapper per exception, the store
    untouched. *)
Lemma init_chain causes : ∀ fuel ty e tb s,
  has_chain (heap s) e causes = true →
  length causes < fuel →
  accepts tb = true →
  all_accepted (heap s) causes = true →
  ∃ w, __init__ Traceback fuel ty e tb s = Returned w s ∧
       e_type w = ty ∧ e_value w = e ∧ token_of tb (e_traceback w) ∧
       Forall2 (captures (heap s)) (tail (links w)) causes.
Proof.
  induction causes as [|c cs IH]; intros fuel ty e tb s Hch Hfuel Htb Hcs;
    (destruct fuel as [|fuel]; [simpl in Hfuel; lia|]).
  - apply has_chain_nil in Hch as (o & Ho & Hcause).
    destruct (accepts_token tb s Htb) as (tok & Hrun & Htok).
    exists (mkWrapper ty e tok None). simpl.
    rewrite bind_run, Hrun, bind_run. unfold deref. rewrite Ho, Hcause.
    repeat split; auto.
  - apply has_chain_cons in Hch as (o & Ho & Hcause & Hch).
    simpl in Hcs. apply andb_true_iff in Hcs as [Hc Hcs].
    destruct (has_chain_lookup _ _ _ Hch) as [oc Hoc].
    destruct (IH fuel (cls oc) c (__traceback__ oc) s Hch)
      as (w & Hw & Hty & Hv & Htk & Hrest); [simpl in Hfuel; lia| |done|].
    { unfold tb_at in Hc. rewrite Hoc in Hc. exact Hc. }
    destruct (accepts_token tb s Htb) as (tok & Hrun & Htok).
    exists (mkWrapper ty e tok (Some w)). simpl.
    rewrite bind_run, Hrun, bind_run. unfold deref at 1. rewrite Ho, Hcause.
    rewrite bind_run. unfold deref. rewrite Hoc, bind_run, Hw. simpl.
    repeat split; auto.
    rewrite links_head. constructor; [|done].
    unfold captures, class_at, tb_at. rewrite Hoc, Hty, Hv. done.
Qed.

(** [__init__] on a loop of causes: every call makes another one. *)
Lemma init_needs_chain fuel : ∀ ty e tb s w s',
  __init__ Traceback fuel ty e tb s = Returned w s' →
  ∃ causes, has_chain (heap s) e causes = true ∧ length causes < fuel.
Proof.
  induction fuel as [|fuel IH]; intros ty e tb s w s' Hrun; [done|].
  simpl in Hrun. rewrite bind_run in Hrun.
  assert (∃ tok, (match tb with
          | None => mret None
          | Some t => k ← call (Traceback t); mret (Some k)
          end : M _) s = Returned tok s) as [tok Htok].
  { destruct tb as [t|]; [|by eexists]. rewrite bind_run in *.
    destruct (Traceback t) as [k|c msg]; [by eexists|done]. }
  rewrite Htok, bind_run in Hrun. unfold deref at 1 in Hrun.
  destruct (heap s !! e) as [o|] eqn:Ho; [|done].
  destruct (__cause__ o) as [c|] eqn:Hc.
  - rewrite bind_run in Hrun. unfold deref in Hrun.
    destruct (heap s !! c) as [oc|] eqn:Hoc; [|done]. rewrite bind_run in Hrun.
    destruct (__init__ Traceback fuel (cls oc) c (__traceback__ oc) s)
      as [wc sc| | |] eqn:Hrec; try done.
    destruct (IH _ _ _ _ _ _ Hrec) as (cs & Hcs & Hlen).
    exists (c :: cs). split; [eauto using has_chain_step | simpl; lia].
  - exists []. split; [eauto using has_chain_end | simpl; lia].
Qed.

Lemma closed_cause h e o c :
  closed h = true → h !! e = Some o → __cause__ o = Some c →
  is_Some (h !! c).
Proof.
  unfold closed. rewrite forallb_forall. intros Hall Ho Hc.
  specialize (Hall (e, o)). simpl in Hall. rewrite Hc in Hall.
  apply (proj1 (bool_decide_eq_true _)), Hall, list_elem_of_In.
  by apply elem_of_map_to_list.
Qed.

Lemma store_accepted_lookup h e o :
  store_accepted h = true → h !! e = Some o →
  accepts (__traceback__ o) = true.
Proof.
  unfold store_accepted. rewrite forallb_forall. intros Hall Ho.
  apply (Hall (e, o)), list_elem_of_In. by apply elem_of_map_to_list.
Qed.

(** [__init__] on a chain that does not end within the depth left: the
    innermost call finds no depth and the interpreter raises. *)
Lemma init_exhausted fuel : ∀ ty e tb s,
  closed (heap s) = true →
  store_accepted (heap s) = true →
  is_Some (heap s !! e) →
  accepts tb = true →
  (∀ causes, has_chain (heap s) e causes = true → fuel ≤ length causes) →
  ∃ x s', __init__ Traceback fuel ty e tb s = Raised x s' ∧
          heap s !! x = None ∧ class_at (heap s') x = Some RecursionError.
Proof.
  induction fuel as [|fuel IH]; intros ty e tb s Hcl Hacc [o Ho] Htb Hlong.
  { do 2 eexists. split; [reflexivity|]. simpl.
    split; [apply not_elem_of_dom, is_fresh|].
    unfold class_at. by rewrite lookup_insert_eq. }
  destruct (accepts_token tb s Htb) as (tok & Hrun & _).
  simpl. rewrite bind_run, Hrun, bind_run. unfold deref at 1. rewrite Ho.
  destruct (__cause__ o) as [c|] eqn:Hc.
  2: { specialize (Hlong [] (has_chain_end _ _ _ Ho Hc)). simpl in Hlong. lia. }
  destruct (closed_cause _ _ _ _ Hcl Ho Hc) as [oc Hoc].
  rewrite bind_run. unfold deref. rewrite Hoc, bind_run.
  destruct (IH (cls oc) c (__traceback__ oc) s Hcl Hacc)
    as (x & s' & Hrec & Hx & Hcls); [by rewrite Hoc|by eapply store_accepted_lookup| |].
  { intros causes Hch. specialize (Hlong (c :: causes)). simpl in Hlong.
    assert (Hstep : has_chain (heap s) e (c :: causes) = true)
      by (by eapply has_chain_step). specialize (Hlong Hstep). lia. }
  rewrite Hrec. eauto.
Qed.

Lemma get_exception_leaf t v k s :
  get_exception as_traceback (mkWrapper t v k None) s = attach v k s.
Proof. reflexivity. Qed.

Lemma get_exception_node t v k c s :
  get_exception as_traceback (mkWrapper t v k (Some c)) s =
  match get_exception as_traceback c s with
  | Returned x s1 =>
      match set___cause__ v (Some x) s1 with
      | Returned _ s2 => attach v k s2
      | Raised e s2 => Raised e s2
      | OutOfFuel => OutOfFuel
      | Dangling => Dangling
      end
  | Raised e s1 => Raised e s1
  | OutOfFuel => OutOfFuel
  | Dangling => Dangling
  end.
Proof.
  cbn [get_exception]. rewrite !bind_run.
  destruct (get_exception as_traceback c s) as [x s1|e s1| |]; reflexivity.
Qed.

(** Attaching the traceback either succeeds, touching that slot only, or
    fails because the token does not decode. *)
Lemma attach_run v k s o :
  heap s !! v = Some o →
  (∃ s', attach v k s = Returned v s' ∧ log s' = log s ∧
         agree forget_tb (heap s) (heap s') ∧ decodes k = true) ∨
  (∃ e s', attach v k s = Raised e s' ∧ decodes k = false).
Proof.
  intros Ho. destruct k as [t|]; simpl.
  - destruct (as_traceback t) as [tb|c msg] eqn:E.
    + left. eexists. split; [exact (with_traceback_run v (Some tb) s o Ho)|].
      simpl. split; [done|]. split; [|done]. by eapply agree_insert.
    + right. do 2 eexists. split; [reflexivity|done].
  - left. exists s. by repeat split.
Qed.

Lemma attach_no_token v s : attach v None s = Returned v s.
Proof. reflexivity. Qed.

(** [get_exception] on any wrapper over existing objects: it returns the
    stored value, or a token fails to decode and tblib's exception is in
    flight. *)
Lemma get_exception_total : ∀ w s,
  well_formed (heap s) w = true →
  (∃ s', get_exception as_traceback w s = Returned (e_value w) s' ∧
         log s' = log s ∧ agree payload (heap s) (heap s') ∧
         decodable w = true) ∨
  (∃ e s', get_exception as_traceback w s = Raised e s' ∧
           decodable w = false).
Proof.
  induction w as [t v k|t v k c IH] using wrapper_ind'; intros s Hwf.
  - unfold well_formed in Hwf. simpl in Hwf.
    apply andb_true_iff in Hwf as [[o Ho]%bool_decide_eq_true _].
    rewrite get_exception_leaf.
    destruct (attach_run v k s o Ho)
      as [(s' & Hrun & Hlog & Hag & Hdec)|(e & s' & Hrun & Hdec)].
    + left. exists s'. rewrite Hrun. unfold decodable; simpl. rewrite Hdec.
      eauto using agree_payload.
    + right. exists e, s'. rewrite Hrun. unfold decodable; simpl.
      by rewrite Hdec.
  - unfold well_formed in Hwf. simpl in Hwf.
    apply andb_true_iff in Hwf as [Hv%bool_decide_eq_true Hwf].
    fold (well_formed (heap s) c) in Hwf.
    rewrite get_exception_node.
    destruct (IH s Hwf)
      as [(s1 & Hrun1 & Hlog1 & Hag1 & Hdec1)|(e & s1 & Hrun1 & Hdec1)].
    + rewrite Hrun1.
      destruct (proj1 (agree_is_Some _ _ _ v Hag1) Hv) as [o1 Ho1].
      unfold set___cause__. rewrite (update_run _ _ _ _ Ho1).
      set (s2 := State _ _).
      assert (Hag2 : agree payload (heap s1) (heap s2))
        by (by eapply agree_insert).
      destruct (attach_run v k s2 _ (lookup_insert_eq _ _ _))
        as [(s' & Hrun & Hlog & Hag & Hdec)|(e & s' & Hrun & Hdec)].
      * left. exists s'. rewrite Hrun. unfold decodable; simpl.
        fold (decodable c). rewrite Hdec, Hdec1.
        split; [done|]. split; [by rewrite Hlog|]. split; [|done].
        eauto using agree_trans, agree_payload.
      * right. exists e, s'. rewrite Hrun. unfold decodable; simpl.
        by rewrite Hdec.
    + right. rewrite Hrun1. exists e, s1. split; [done|].
      unfold decodable; simpl. fold (decodable c). rewrite Hdec1.
      apply andb_false_r.
Qed.

(** Without tokens [get_exception] writes [__cause__] slots only. *)
Lemma get_exception_token_free : ∀ w s,
  well_formed (heap s) w = true → token_free w = true →
  ∃ s', get_exception as_traceback w s = Returned (e_value w) s' ∧
        agree __traceback__ (heap s) (heap s').
Proof.
  induction w as [t v k|t v k c IH] using wrapper_ind'; intros s Hwf Hfree;
    unfold token_free in Hfree; simpl in Hfree;
    apply andb_true_iff in Hfree as [->%bool_decide_eq_true Hfree].
  - rewrite get_exception_leaf. by exists s.
  - fold (token_free c) in Hfree.
    unfold well_formed in Hwf. simpl in Hwf.
    apply andb_true_iff in Hwf as [Hv%bool_decide_eq_true Hwf].
    fold (well_formed (heap s) c) in Hwf.
    destruct (IH s Hwf Hfree) as (s1 & Hrun1 & Hag1).
    rewrite get_exception_node, Hrun1.
    destruct (proj1 (agree_is_Some _ _ _ v Hag1) Hv) as [o1 Ho1].
    unfold set___cause__. rewrite (update_run _ _ _ _ Ho1), attach_no_token.
    eexists. split; [done|]. simpl.
    eapply agree_trans; [done|]. by eapply agree_insert.
Qed.

(** [get_exception] on the snapshot of a chain that is still in the
    store: every [__cause__] is rewritten to what it was. *)
Lemma get_exception_chain causes : ∀ w e s,
  has_chain (heap s) e causes = true →
  e_value <$> links w = e :: causes →
  decodable w = true →
  ∃ s', get_exception as_traceback w s = Returned e s' ∧ log s' = log s ∧
        agree forget_tb (heap s) (heap s').
Proof.
  induction causes as [|c cs IH]; intros [t v k cw] e s Hch Hlinks Hdec.
  - destruct cw as [cw|].
    { simpl in Hlinks. injection Hlinks as _ Hnil. apply fmap_nil_inv in Hnil.
      by apply links_nonempty in Hnil. }
    simpl in Hlinks. injection Hlinks as ->.
    apply has_chain_nil in Hch as (o & Ho & _).
    rewrite get_exception_leaf.
    destruct (attach_run e k s o Ho)
      as [(s' & Hrun & Hlog & Hag & _)|(x & s' & _ & Hno)]; [eauto|].
    unfold decodable in Hdec; simpl in Hdec. rewrite Hno in Hdec. done.
  - destruct cw as [cw|]; [|done].
    simpl in Hlinks. injection Hlinks as -> Hlinks.
    apply has_chain_cons in Hch as (o & Ho & Hcause & Hch).
    unfold decodable in Hdec; simpl in Hdec.
    apply andb_true_iff in Hdec as [Hk Hdec].
    destruct (IH cw c s Hch Hlinks Hdec) as (s1 & Hrun1 & Hlog1 & Hag1).
    rewrite get_exception_node, Hrun1.
    pose proof (Hag1 e) as He. rewrite Ho in He. simpl in He.
    destruct (heap s1 !! e) as [o1|] eqn:Ho1; [|done]. simpl in He.
    unfold set___cause__. rewrite (update_run _ _ _ _ Ho1).
    set (s2 := State _ _).
    assert (Hag2 : agree forget_tb (heap s1) (heap s2)).
    { eapply agree_insert; [done|].
      unfold forget_tb in *; simpl. simplify_eq/=. congruence. }
    destruct (attach_run e k s2 _ (lookup_insert_eq _ _ _))
      as [(s' & Hrun & Hlog & Hag & _)|(x & s' & _ & Hno)]; [|congruence].
    exists s'. split; [done|]. split; [by rewrite Hlog|].
    eauto using agree_trans.
Qed.

Lemma six_reraise_run t v s o :
  heap s !! v = Some o → six.reraise t v (__traceback__ o) s = Raised v s.
Proof.
  intros Ho. unfold six.reraise. rewrite bind_run. unfold deref. rewrite Ho.
  by rewrite decide_True.
Qed.

Lemma reraise_returned w v s s' :
  get_exception as_traceback w (logged w s) = Returned v s' →
  is_Some (heap s' !! v) →
  reraise as_traceback w s = Raised v s'.
Proof.
  intros Hrun [o Ho]. unfold reraise. rewrite bind_run. unfold logger_debug.
  fold (logged w s). rewrite bind_run, Hrun, bind_run. unfold deref.
  rewrite Ho. by apply six_reraise_run.
Qed.

Lemma reraise_raised w e s s' :
  get_exception as_traceback w (logged w s) = Raised e s' →
  reraise as_traceback w s = Raised e s'.
Proof.
  intros Hrun. unfold reraise. rewrite bind_run. unfold logger_debug.
  fold (logged w s). by rewrite bind_run, Hrun.
Qed.

(** Lines 166-169 when the unit raised an [Exception]. *)
Lemma wrap_error_caught fuel func a kw s e s1 o :
  func a kw s = Raised e s1 →
  heap s1 !! e = Some o →
  issubclass (cls o) Exception = true →
  wrap_error Traceback fuel func a kw s =
  match __init__ Traceback fuel (cls o) e (__traceback__ o) s1 with
  | Returned w s2 => Returned (VWrapper w) s2
  | Raised x s2 => Raised x s2
  | OutOfFuel => OutOfFuel
  | Dangling => Dangling
  end.
Proof.
  intros Hf Ho Hsub. unfold wrap_error, isinstance. rewrite Hf, Ho, Hsub.
  rewrite bind_run. unfold deref. rewrite Ho, bind_run.
  by destruct (__init__ _ _ _ _ _ _).
Qed.

(** Capture of an [Exception] whose chain of causes ends. *)
Lemma wrap_error_captures fuel func a kw s e s1 o causes :
  func a kw s = Raised e s1 →
  heap s1 !! e = Some o →
  issubclass (cls o) Exception = true →
  has_chain (heap s1) e causes = true →
  length causes < fuel →
  all_accepted (heap s1) (e :: causes) = true →
  ∃ w, wrap_error Traceback fuel func a kw s = Returned (VWrapper w) s1 ∧
       Forall2 (captures (heap s1)) (links w) (e :: causes).
Proof.
  intros Hf Ho Hsub Hch Hfuel [He Hcs]%andb_true_iff.
  unfold tb_at in He. rewrite Ho in He. simpl in He.
  destruct (init_chain causes fuel (cls o) e (__traceback__ o) s1)
    as (w & Hrun & Hty & Hv & Htok & Hrest); try done.
  exists w. rewrite (wrap_error_caught _ _ _ _ _ _ _ _ Hf Ho Hsub), Hrun.
  split; [done|]. rewrite links_head. constructor; [|done].
  unfold captures, class_at, tb_at. rewrite Ho, Hty, Hv. done.
Qed.

(** *** The properties of the specification *)

(** C8. A work unit that completes normally has its result returned
    unchanged by the wrapper, in the state the unit left: [wrap_error(f)]
    applied to the arguments equals [f] applied to them. *)
Theorem wrap_error_passes_result_through fuel func a kw s v s' :
  func a kw s = Returned v s' →
  wrap_error Traceback fuel func a kw s = Returned v s'.
Proof. intros H. unfold wrap_error. by rewrite H. Qed.

(** C10. Capture follows [__cause__] only: when the captured exception
    has no [__cause__], the wrapper's [cause] is [None], whatever the
    exception's [__context__] is. *)
Theorem wrap_error_mirrors_explicit_cause_only fuel func a kw s e s1 o :
  func a kw s = Raised e s1 →
  heap s1 !! e = Some o →
  issubclass (cls o) Exception = true →
  __cause__ o = None →
  accepts (__traceback__ o) = true →
  0 < fuel →
  ∃ w, wrap_error Traceback fuel func a kw s = Returned (VWrapper w) s1 ∧
       e_value w = e ∧ cause w = None.
Proof.
  intros Hf Ho Hsub Hcause Htb Hfuel.
  destruct (wrap_error_captures fuel func a kw s e s1 o [])
    as (w & Hrun & Hcap); eauto using has_chain_end.
  { unfold all_accepted, tb_at. simpl. by rewrite Ho, andb_true_r. }
  exists w. split; [done|].
  apply Forall2_cons_inv_r in Hcap as (w' & ws & (Hv & _) & Hnil & Hlinks).
  apply Forall2_nil_inv_r in Hnil as ->.
  destruct w as [t v k [c|]]; simpl in Hlinks.
  - injection Hlinks as _ Hc. by apply links_nonempty in Hc.
  - injection Hlinks as <-. done.
Qed.

(** C1. Round trip of kind and payload: when a work unit raises an
    exception of a class K deriving from [Exception] (every class of the
    module does) with some payload, [wrap_error] returns a wrapper of
    type K, and [reraise] on that wrapper signals an exception of class K
    whose [args] and attributes are the original ones. tblib is assumed
    to carry the tracebacks of the chain. *)
Theorem capture_replay_round_trip fuel func a kw s e s1 o causes :
  func a kw s = Raised e s1 →
  heap s1 !! e = Some o →
  issubclass (cls o) Exception = true →
  has_chain (heap s1) e causes = true →
  length causes < fuel →
  all_carried (heap s1) (e :: causes) = true →
  ∃ w s2 o',
    wrap_error Traceback fuel func a kw s = Returned (VWrapper w) s1 ∧
    e_type w = cls o ∧
    reraise as_traceback w s1 = Raised e s2 ∧
    heap s2 !! e = Some o' ∧
    cls o' = cls o ∧ args o' = args o ∧ attrs o' = attrs o.
Proof.
  intros Hf Ho Hsub Hch Hfuel Hcar.
  destruct (wrap_error_captures fuel func a kw s e s1 o causes)
    as (w & Hrun & Hcap); auto using all_carried_accepted.
  destruct (get_exception_chain causes w e (logged w s1))
    as (s2 & Hget & _ & Hag);
    eauto using captures_values, captures_decodable.
  simpl in Hag. pose proof (Hag e) as He. rewrite Ho in He.
  destruct (heap s2 !! e) as [o'|] eqn:Ho'; [|done].
  exists w, s2, o'. split; [done|]. split.
  { rewrite links_head in Hcap. apply Forall2_cons_1 in Hcap as [(_ & Hc & _) _].
    unfold class_at in Hc. rewrite Ho in Hc. by injection Hc. }
  split; [apply reraise_returned; [done | by rewrite Ho']|].
  split; [done|]. unfold forget_tb in He. by simplify_eq/=.
Qed.

(** C3, as amended. What the wrapped call returns: the result of a unit
    that returns, unchanged; and, for a unit that raises an instance of
    [Exception], with any payload, whose chain of causes ends within the
    depth of recursion left and whose tracebacks tblib accepts, a wrapper
    that stores the raised exception under its class. What it does not
    catch: an exception that is no instance of [Exception] leaves the
    wrapped call as the unit raised it. *)
Theorem wrap_error_returns_a_value fuel func a kw s :
  (∀ v s1, func a kw s = Returned v s1 →
     wrap_error Traceback fuel func a kw s = Returned v s1) ∧
  (∀ e s1 o causes,
     func a kw s = Raised e s1 → heap s1 !! e = Some o →
     issubclass (cls o) Exception = true →
     has_chain (heap s1) e causes = true → length causes < fuel →
     all_accepted (heap s1) (e :: causes) = true →
     ∃ w, wrap_error Traceback fuel func a kw s = Returned (VWrapper w) s1 ∧
          e_value w = e ∧ e_type w = cls o) ∧
  (∀ e s1, func a kw s = Raised e s1 →
     isinstance s1 e Exception = false →
     wrap_error Traceback fuel func a kw s = Raised e s1).
Proof.
  split; [|split].
  - intros v s1 Hv. unfold wrap_error. by rewrite Hv.
  - intros e s1 o causes Hf Ho Hsub Hch Hfuel Hacc.
    destruct (wrap_error_captures fuel func a kw s e s1 o causes)
      as (w & Hrun & Hcap); try done.
    exists w. split; [done|]. rewrite links_head in Hcap.
    apply Forall2_cons in Hcap as [(Hv & Hc & _) _]. split; [done|].
    unfold class_at in Hc. rewrite Ho in Hc. by injection Hc.
  - intros e s1 Hf Hno. unfold wrap_error. by rewrite Hf, Hno.
Qed.

(** C4, as amended. Capture has no cap on the depth and no marker for a
    cut chain. For an [Exception] the unit raised: a wrapper is returned
    only if the chain of causes ends within the depth of recursion left;
    on such a chain, of any length, the wrapper has one link per
    exception, each storing that exception; and when the chain does not
    end within the depth left, as a chain that loops never does, the
    recursion is ended by the interpreter: a new [RecursionError] leaves
    the wrapped call. *)
Theorem capture_recursion_has_no_cap fuel func a kw s e s1 o :
  func a kw s = Raised e s1 →
  heap s1 !! e = Some o →
  issubclass (cls o) Exception = true →
  (∀ w s2, wrap_error Traceback fuel func a kw s = Returned (VWrapper w) s2 →
     ∃ causes, has_chain (heap s1) e causes = true ∧ length causes < fuel) ∧
  (∀ causes, has_chain (heap s1) e causes = true → length causes < fuel →
     all_accepted (heap s1) (e :: causes) = true →
     ∃ w, wrap_error Traceback fuel func a kw s = Returned (VWrapper w) s1 ∧
          e_value <$> links w = e :: causes) ∧
  (closed (heap s1) = true → store_accepted (heap s1) = true →
   (∀ causes, has_chain (heap s1) e causes = true → fuel ≤ length causes) →
   ∃ x s2, wrap_error Traceback fuel func a kw s = Raised x s2 ∧
           heap s1 !! x = None ∧
           class_at (heap s2) x = Some RecursionError).
Proof.
  intros Hf Ho Hsub. split; [|split].
  - intros w s2. rewrite (wrap_error_caught _ _ _ _ _ _ _ _ Hf Ho Hsub).
    destruct (__init__ _ _ _ _ _ _) as [w' s'| | |] eqn:Hrun; try done.
    intros _. eauto using init_needs_chain.
  - intros causes Hch Hfuel Hacc.
    destruct (wrap_error_captures fuel func a kw s e s1 o causes)
      as (w & Hrun & Hcap); eauto using captures_values.
  - intros Hcl Hacc Hlong.
    destruct (init_exhausted fuel (cls o) e (__traceback__ o) s1 Hcl Hacc
                (mk_is_Some _ _ Ho) (store_accepted_lookup _ _ _ Hacc Ho)
                Hlong) as (x & s2 & Hrun & Hx & Hcls).
    exists x, s2. by rewrite (wrap_error_caught _ _ _ _ _ _ _ _ Hf Ho Hsub), Hrun.
Qed.

(** Replay looks no kind up and puts nothing in the place of what it
    was given: on a wrapper over existing objects whose tokens decode,
    [reraise] signals the stored [e_value], and the class and [args] of
    that object after replay are the ones it had, whatever [e_type]
    says. *)
Lemma reraise_signals_the_stored_kind w s :
  well_formed (heap s) w = true →
  decodable w = true →
  ∃ s', reraise as_traceback w s = Raised (e_value w) s' ∧
        class_at (heap s') (e_value w) = class_at (heap s) (e_value w) ∧
        args_at (heap s') (e_value w) = args_at (heap s) (e_value w).
Proof.
  intros Hwf Hdec.
  destruct (get_exception_total w (logged w s) Hwf)
    as [(s' & Hget & _ & Hag & _)|(e & s' & _ & Hno)]; [|congruence].
  simpl in Hag. exists s'. split.
  - apply reraise_returned; [done|]. apply (agree_is_Some _ _ _ _ Hag).
    unfold well_formed in Hwf. rewrite links_head in Hwf. simpl in Hwf.
    by apply andb_true_iff in Hwf as [?%bool_decide_eq_true _].
  - split; symmetry; [by apply agree_class | by apply agree_args].
Qed.


(** C7. Replay never returns: on every wrapper over existing objects
    [reraise] ends with an exception in flight. When no link carries a
    token, that exception is the stored [e_value], and no traceback of
    the store has changed. *)
Theorem reraise_always_raises w s :
  well_formed (heap s) w = true →
  (∃ e s', reraise as_traceback w s = Raised e s') ∧
  (token_free w = true →
   ∃ s', reraise as_traceback w s = Raised (e_value w) s' ∧
         agree __traceback__ (heap s) (heap s')).
Proof.
  intros Hwf.
  assert (Hv : is_Some (heap s !! e_value w)).
  { unfold well_formed in Hwf. rewrite links_head in Hwf. simpl in Hwf.
    by apply andb_true_iff in Hwf as [?%bool_decide_eq_true _]. }
  split.
  - destruct (get_exception_total w (logged w s) Hwf)
      as [(s' & Hget & _ & Hag & _)|(e & s' & Hget & _)].
    + exists (e_value w), s'. apply reraise_returned; [done|].
      by apply (agree_is_Some _ _ _ _ Hag).
    + exists e, s'. by apply reraise_raised.
  - intros Hfree.
    destruct (get_exception_token_free w (logged w s) Hwf Hfree)
      as (s' & Hget & Hag).
    exists s'. split; [|done]. apply reraise_returned; [done|].
    by apply (agree_is_Some _ _ _ _ Hag).
Qed.


End Correctness.

(** ** The properties on concrete runs *)

Module Runs.
Import Examples.

Lemma module_classes_are_exceptions :
  forallb (λ c, issubclass c Exception) module_classes = true.
Proof. reflexivity. Qed.

(** [returns_42] through the wrapper. *)
Lemma pass_through_run :
  returns_42 [] [] s0 = Returned (VInt 42) s0 ∧
  wrap_error Traceback 1 returns_42 [] [] s0 = Returned (VInt 42) s0.
Proof.
  split; [reflexivity|].
  apply (wrap_error_passes_result_through Traceback 1 returns_42 [] [] s0).
  reflexivity.
Defined.

(** An exception raised while another was handled: the context stays
    behind. *)
Lemma context_not_captured_run :
  __context__ (in_handler 0) = Some 0 ∧
  ∃ w, wrap_error Traceback 1 while_handling [] [] s0 =
         Returned (VWrapper w) (state_after while_handling) ∧
       e_value w = 1 ∧ cause w = None.
Proof.
  split; [reflexivity|].
  apply (wrap_error_mirrors_explicit_cause_only Traceback 1 while_handling
           [] [] s0 1 (state_after while_handling) (in_handler 0));
    [reflexivity..|lia].
Defined.

(** [BashExitFailure("echo", 2)] through capture and replay. *)
Lemma round_trip_run :
  issubclass BashExitFailure Exception = true ∧
  ∃ w s2 o',
    wrap_error Traceback 1 bash_exit [] [] s0 =
      Returned (VWrapper w) (state_after bash_exit) ∧
    e_type w = BashExitFailure ∧
    reraise as_traceback w (state_after bash_exit) = Raised 0 s2 ∧
    heap s2 !! 0 = Some o' ∧
    cls o' = BashExitFailure ∧ args o' = [VStr "echo"; VInt 2] ∧
    attrs o' = attrs (BashExitFailure_new "echo" 2).
Proof.
  split; [reflexivity|].
  apply (capture_replay_round_trip Traceback as_traceback 1 bash_exit [] []
           s0 0 (state_after bash_exit) exit_2 []);
    [reflexivity..|simpl; lia|reflexivity].
Defined.

(** [KeyboardInterrupt] is no [Exception]: it leaves the wrapper as an
    exception. *)
Lemma keyboard_interrupt_escapes :
  ∃ e s', wrap_error Traceback 1 interrupted [] [] s0 = Raised e s' ∧
          class_at (heap s') e = Some KeyboardInterrupt.
Proof. do 2 eexists. split; reflexivity. Qed.

(** An exception whose payload is an open file comes back as a wrapper
    around it. *)
Lemma handle_payload_run :
  args holds_handle = [VHandle 3] ∧
  ∃ w, wrap_error Traceback 1 handle_payload [] [] s0 =
         Returned (VWrapper w) (state_after handle_payload) ∧
       e_value w = 0 ∧ e_type w = AppException.
Proof.
  split; [reflexivity|].
  apply (proj1 (proj2 (wrap_error_returns_a_value Traceback 1 handle_payload
                         [] [] s0))
           0 (state_after handle_payload) holds_handle []);
    [reflexivity..|simpl; lia|reflexivity].
Defined.

(** A loop of causes has no chain that ends. *)
Lemma cyclic_chain_has_no_end cs :
  has_chain (heap (state_after cyclic)) 0 cs = false ∧
  has_chain (heap (state_after cyclic)) 1 cs = false.
Proof.
  induction cs as [|c cs [IH0 IH1]]; [split; reflexivity|].
  split; simpl.
  - destruct (decide (c = 1)) as [->|Hne]; [by rewrite IH1, andb_false_r|].
    rewrite bool_decide_eq_false_2; [done|].
    change (cause_at (heap (state_after cyclic)) 0) with (Some (Some 1)).
    congruence.
  - destruct (decide (c = 0)) as [->|Hne]; [by rewrite IH0, andb_false_r|].
    rewrite bool_decide_eq_false_2; [done|].
    change (cause_at (heap (state_after cyclic)) 1) with (Some (Some 0)).
    congruence.
Qed.

(** On a loop of causes capture returns no wrapper, cut or not, whatever
    the depth; with a depth of a thousand calls the interpreter's
    [RecursionError] leaves the wrapped call. *)
Lemma cyclic_chain_never_captured :
  (¬ ∃ fuel v s', wrap_error Traceback fuel cyclic [] [] s0 = Returned v s') ∧
  ∃ x s', wrap_error Traceback 1000 cyclic [] [] s0 = Raised x s' ∧
          heap (state_after cyclic) !! x = None ∧
          class_at (heap s') x = Some RecursionError.
Proof.
  split.
  - intros (fuel & v & s' & Hrun).
    assert (Hf : cyclic [] [] s0 = Raised 0 (state_after cyclic))
      by reflexivity.
    assert (Ho : ∃ o, heap (state_after cyclic) !! 0 = Some o ∧
                      issubclass (cls o) Exception = true)
      by (eexists; split; reflexivity).
    destruct Ho as (o & Ho & Hsub).
    rewrite (wrap_error_caught _ _ _ _ _ _ _ _ _ Hf Ho Hsub) in Hrun.
    destruct (__init__ _ _ _ _ _ _) as [w s2| | |] eqn:Hinit; try done.
    apply init_needs_chain in Hinit as (cs & Hcs & _).
    by rewrite (proj1 (cyclic_chain_has_no_end cs)) in Hcs.
  - do 2 eexists. split; [vm_compute; reflexivity|]. split; reflexivity.
Qed.

(** A hundred and twenty causes: a hundred and twenty-one links when the
    depth left allows them, and a [RecursionError] when it allows fifty
    calls. *)
Lemma deep_chain_run :
  has_chain (heap (state_after (deep_unit 120))) 120
            (reverse (seq 0 120)) = true ∧
  (∃ w, wrap_error Traceback 121 (deep_unit 120) [] [] s0 =
          Returned (VWrapper w) (state_after (deep_unit 120)) ∧
        e_value <$> links w = 120 :: reverse (seq 0 120)) ∧
  ∃ x s2, wrap_error Traceback 50 (deep_unit 120) [] [] s0 = Raised x s2 ∧
          heap (state_after (deep_unit 120)) !! x = None ∧
          class_at (heap s2) x = Some RecursionError.
Proof.
  assert (Hch : has_chain (heap (state_after (deep_unit 120))) 120
                          (reverse (seq 0 120)) = true)
    by (vm_compute; reflexivity).
  split; [exact Hch|]. split.
  - destruct (capture_recursion_has_no_cap Traceback 121 (deep_unit 120)
                [] [] s0 120 (state_after (deep_unit 120)) (layer 119))
      as (_ & Hends & _); [vm_compute; reflexivity..|].
    apply Hends; [exact Hch| |vm_compute; reflexivity].
    rewrite length_reverse, length_seq. lia.
  - destruct (capture_recursion_has_no_cap Traceback 50 (deep_unit 120)
                [] [] s0 120 (state_after (deep_unit 120)) (layer 119))
      as (_ & _ & Hdeep); [vm_compute; reflexivity..|].
    apply Hdeep; [vm_compute; reflexivity..|].
    intros causes Hcs.
    rewrite (has_chain_functional _ _ _ _ Hcs Hch), length_reverse, length_seq.
    lia.
Defined.

(** A class declared elsewhere is signalled as it is. *)
Lemma stored_kind_run :
  well_formed (heap worker_only_state) worker_only = true ∧
  ∃ s', reraise as_traceback worker_only worker_only_state =
          Raised (e_value worker_only) s' ∧
        class_at (heap s') (e_value worker_only) =
          class_at (heap worker_only_state) (e_value worker_only) ∧
        args_at (heap s') (e_value worker_only) =
          args_at (heap worker_only_state) (e_value worker_only).
Proof.
  split; [reflexivity|].
  apply (reraise_signals_the_stored_kind as_traceback worker_only
           worker_only_state); reflexivity.
Defined.



(** A received wrapper without token: replay raises the stored value. *)
Lemma no_token_replay_run :
  well_formed (heap received_state) received_no_token = true ∧
  (∃ e s', reraise as_traceback received_no_token received_state =
             Raised e s') ∧
  (token_free received_no_token = true →
   ∃ s', reraise as_traceback received_no_token received_state =
           Raised (e_value received_no_token) s' ∧
         agree __traceback__ (heap received_state) (heap s')).
Proof.
  split; [reflexivity|].
  apply (reraise_always_raises as_traceback received_no_token received_state).
  reflexivity.
Defined.



End Runs.

(** ** Beyond the stated properties: what else the code guarantees *)

Section Coverage.

Variable Traceback : TracebackType → tblib.result tblib.Traceback.
Variable as_traceback : tblib.Traceback → tblib.result TracebackType.

(** tblib gives this traceback back as it took it. *)
Definition faithful (tb : option TracebackType) : bool :=
  match tb with
  | None => true
  | Some t =>
      match Traceback t with
      | tblib.Ok k =>
          match as_traceback k with
          | tblib.Ok t' => bool_decide (t' = t)
          | tblib.Raises _ _ => false
          end
      | tblib.Raises _ _ => false
      end
  end.

Definition all_faithful (h : gmap loc exn_obj) (es : list loc) : bool :=
  forallb (λ e, faithful (tb_at h e)) es.

(** The exceptions a wrapper chain stores, outermost first. *)
Definition stored (w : RemoteExceptionWrapper) : list loc :=
  e_value <$> links w.

(** The [__cause__] slot [get_exception] leaves on the stored value of a
    wrapper whose cause is [c]: line 144 writes the value of the cause
    wrapper; without a cause the slot stays as it was. *)
Definition linked (c : option RemoteExceptionWrapper) (old : option loc)
    : option loc :=
  match c with
  | Some c => Some (e_value c)
  | None => old
  end.

(** The [__traceback__] slot lines 145-149 leave for the token [tok]: the
    decoded traceback, or the slot as it was without a token; [None] when
    the token does not decode. *)
Definition attached (tok : option tblib.Traceback)
    (old : option TracebackType) : option (option TracebackType) :=
  match tok with
  | None => Some old
  | Some t =>
      match as_traceback t with
      | tblib.Ok tb => Some (Some tb)
      | tblib.Raises _ _ => None
      end
  end.

(** The object the link [k] stores, before ([h]) and after ([h']) a
    replay: same class, arguments, attributes and context; cause and
    traceback as written. *)
Definition replayed (h h' : gmap loc exn_obj) (k : RemoteExceptionWrapper)
    : Prop :=
  ∃ o o', h !! e_value k = Some o ∧ h' !! e_value k = Some o' ∧
          payload o' = payload o ∧
          __cause__ o' = linked (cause k) (__cause__ o) ∧
          attached (e_traceback k) (__traceback__ o) =
            Some (__traceback__ o').

(** The object the link [k] stores already holds what a replay writes. *)
Definition settled (h : gmap loc exn_obj) (k : RemoteExceptionWrapper)
    : Prop :=
  ∃ o, h !! e_value k = Some o ∧
       __cause__ o = linked (cause k) (__cause__ o) ∧
       attached (e_traceback k) (__traceback__ o) = Some (__traceback__ o).

(** *** Capture and the store *)

(** [__init__] writes nothing: when it returns, the store is as it was;
    when it raises, one new object was added, the exception of tblib or
    the [RecursionError] of the interpreter. It always ends. *)
Lemma init_outcome fuel : ∀ ty e tb s,
  match __init__ Traceback fuel ty e tb s with
  | Returned w s' => s' = s ∧ e_type w = ty ∧ e_value w = e
  | Raised x s' =>
      heap s !! x = None ∧ log s' = log s ∧
      ∃ o, heap s' = <[x := o]> (heap s) ∧
           (cls o = RecursionError ∨
            ∃ t c msg, Traceback t = tblib.Raises c msg ∧ cls o = c)
  | OutOfFuel => False
  | Dangling => True
  end.
Proof.
  induction fuel as [|fuel IH]; intros ty e tb s.
  { simpl. split; [apply not_elem_of_dom, is_fresh|]. split; [done|].
    eexists. split; [done|]. by left. }
  simpl. rewrite bind_run.
  destruct tb as [t|];
    [rewrite bind_run; destruct (Traceback t) as [k|c msg] eqn:Ht|]; simpl.
  2: { split; [apply not_elem_of_dom, is_fresh|]. split; [done|].
       eexists. split; [done|]. right. by exists t, c, msg. }
  all: rewrite bind_run; unfold deref at 1;
    destruct (heap s !! e) as [o|]; [|done];
    destruct (__cause__ o) as [c|]; [|done];
    rewrite bind_run; unfold deref;
    destruct (heap s !! c) as [oc|]; [|done]; rewrite bind_run;
    specialize (IH (cls oc) c (__traceback__ oc) s).
  all: destruct (__init__ Traceback fuel (cls oc) c (__traceback__ oc) s)
    as [w s'|x s'| |]; simpl; [by destruct IH as (-> & _)|done..].
Qed.

(** X1. Whatever the wrapped call returns, the store is the one the work
    unit left: capture writes to no object and creates none. A returned
    value is the unit's own result, or a wrapper around the very
    exception the unit raised, typed with that exception's class. *)
Theorem wrap_error_returns_leave_the_store fuel func a kw s v s2 :
  wrap_error Traceback fuel func a kw s = Returned v s2 →
  func a kw s = Returned v s2 ∨
  ∃ e w, func a kw s = Raised e s2 ∧ isinstance s2 e Exception = true ∧
         v = VWrapper w ∧ e_value w = e ∧ class_at (heap s2) e = Some (e_type w).
Proof.
  unfold wrap_error. destruct (func a kw s) as [v1 s1|e s1| |]; try done.
  { intros [= <- <-]. by left. }
  unfold isinstance, class_at.
  destruct (heap s1 !! e) as [o|] eqn:Ho; [|done].
  destruct (issubclass (cls o) Exception) eqn:Hsub; [|done].
  rewrite bind_run. unfold deref. rewrite Ho, bind_run.
  pose proof (init_outcome fuel (cls o) e (__traceback__ o) s1) as Hinit.
  destruct (__init__ _ _ _ _ _ _) as [w s'| | |]; try done.
  destruct Hinit as (-> & Hty & Hv). intros [= <- <-].
  right. exists e, w. rewrite Ho, Hsub. simpl. by rewrite Hty.
Qed.

(** X2. An exception leaves the wrapped call in three cases only: the
    unit raised something that is no [Exception], which passes through
    untouched; tblib raised while a token was built; or the depth of
    recursion ran out at line 125 and the interpreter raised
    [RecursionError]. In the last two cases the exception in flight is a
    new object, of the class tblib raised or [RecursionError]. An
    [Exception] the unit raised never leaves the call as itself. *)
Theorem wrap_error_raises_only fuel func a kw s x s2 :
  wrap_error Traceback fuel func a kw s = Raised x s2 →
  ∃ e s1, func a kw s = Raised e s1 ∧
    ((isinstance s1 e Exception = false ∧ x = e ∧ s2 = s1) ∨
     (isinstance s1 e Exception = true ∧ heap s1 !! x = None ∧
      log s2 = log s1 ∧
      ∃ o, heap s2 = <[x := o]> (heap s1) ∧
           (cls o = RecursionError ∨
            ∃ t c msg, Traceback t = tblib.Raises c msg ∧ cls o = c))).
Proof.
  unfold wrap_error. destruct (func a kw s) as [v1 s1|e s1| |]; try done.
  intros H. exists e, s1. split; [done|].
  destruct (isinstance s1 e Exception) eqn:Hinst.
  - right. split; [done|]. unfold isinstance in Hinst.
    destruct (heap s1 !! e) as [o|] eqn:Ho; [|done].
    rewrite bind_run in H. unfold deref in H. rewrite Ho, bind_run in H.
    pose proof (init_outcome fuel (cls o) e (__traceback__ o) s1) as Hinit.
    destruct (__init__ _ _ _ _ _ _) as [w s'|y s'| |]; try done.
    by injection H as <- <-.
  - left. by injection H as <- <-.
Qed.

(** X3. Each link of a captured chain stores the token of its own
    exception's traceback: what [tblib.Traceback] made of it, and [None]
    exactly for an exception that has no traceback. *)
Theorem wrap_error_stores_each_token fuel func a kw s e s1 o causes :
  func a kw s = Raised e s1 →
  heap s1 !! e = Some o →
  issubclass (cls o) Exception = true →
  has_chain (heap s1) e causes = true →
  length causes < fuel →
  all_accepted Traceback (heap s1) (e :: causes) = true →
  ∃ w, wrap_error Traceback fuel func a kw s = Returned (VWrapper w) s1 ∧
       Forall2 (λ k x, token_of Traceback (tb_at (heap s1) x) (e_traceback k) ∧
                       (e_traceback k = None ↔ tb_at (heap s1) x = None))
               (links w) (e :: causes).
Proof.
  intros Hf Ho Hsub Hch Hfuel Hacc.
  destruct (wrap_error_captures Traceback fuel func a kw s e s1 o causes)
    as (w & Hrun & Hcap); try done.
  exists w. split; [done|].
  eapply Forall2_impl; [exact Hcap|].
  intros k x (_ & _ & Htok). split; [done|].
  unfold token_of in Htok.
  by destruct (tb_at (heap s1) x), (e_traceback k).
Qed.

(** *** Replay and the store *)

Lemma stored_leaf t v k : stored (mkWrapper t v k None) = [v].
Proof. reflexivity. Qed.

Lemma stored_node t v k c :
  stored (mkWrapper t v k (Some c)) = v :: stored c.
Proof. reflexivity. Qed.

Lemma well_formed_leaf h t v k :
  well_formed h (mkWrapper t v k None) = bool_decide (is_Some (h !! v)).
Proof. unfold well_formed. simpl. apply andb_true_r. Qed.

Lemma well_formed_node h t v k c :
  well_formed h (mkWrapper t v k (Some c)) =
  bool_decide (is_Some (h !! v)) && well_formed h c.
Proof. reflexivity. Qed.

Lemma decodable_leaf t v k :
  decodable as_traceback (mkWrapper t v k None) = decodes as_traceback k.
Proof. unfold decodable. simpl. apply andb_true_r. Qed.

Lemma decodable_node t v k c :
  decodable as_traceback (mkWrapper t v k (Some c)) =
  decodes as_traceback k && decodable as_traceback c.
Proof. reflexivity. Qed.

Lemma dom_insert_existing (h : gmap loc exn_obj) l o :
  is_Some (h !! l) → dom (<[l := o]> h) = dom h.
Proof.
  intros Hl. rewrite dom_insert_L. apply elem_of_dom in Hl. set_solver.
Qed.

(** Lines 145-149, all outcomes. *)
Lemma attach_outcome v k s :
  match attach as_traceback v k s with
  | Returned v' s' =>
      v' = v ∧ log s' = log s ∧ dom (heap s') = dom (heap s) ∧
      (∀ l, l ≠ v → heap s' !! l = heap s !! l) ∧
      agree payload (heap s) (heap s') ∧ decodes as_traceback k = true
  | Raised x s' =>
      log s' = log s ∧ heap s !! x = None ∧ is_Some (heap s' !! x) ∧
      (∀ l, l ≠ x → heap s' !! l = heap s !! l) ∧
      decodes as_traceback k = false
  | OutOfFuel => False
  | Dangling => heap s !! v = None
  end.
Proof.
  destruct k as [t|]; simpl; [|by repeat split].
  destruct (as_traceback t) as [tb|c msg] eqn:E.
  - change ((call (tblib.Ok tb) ≫= λ tb0, with_traceback v (Some tb0)) s)
      with (with_traceback v (Some tb) s).
    destruct (heap s !! v) as [o|] eqn:Ho.
    + rewrite (with_traceback_run _ _ _ o Ho). simpl.
      split; [done|]. split; [done|].
      split; [by apply dom_insert_existing|].
      split; [by intros l Hl; rewrite lookup_insert_ne|].
      split; [by eapply agree_insert|done].
    + unfold with_traceback. rewrite bind_run. unfold update. by rewrite Ho.
  - change ((call (tblib.Raises c msg) ≫= λ tb0, with_traceback v (Some tb0)) s)
      with (@raise_new loc c msg s).
    unfold raise_new. rewrite bind_run. simpl.
    split; [done|]. split; [apply not_elem_of_dom, is_fresh|].
    split; [by rewrite lookup_insert_eq|].
    split; [by intros l Hl; rewrite lookup_insert_ne|done].
Qed.

(** [get_exception], all outcomes: it returns the stored value, having
    written only to the objects the chain stores; or a token did not
    decode and a new exception is in flight. It does not run forever, and
    reads through no dangling reference unless the wrapper holds one. *)
Lemma get_exception_outcome : ∀ w s,
  match get_exception as_traceback w s with
  | Returned v s' =>
      v = e_value w ∧ log s' = log s ∧ dom (heap s') = dom (heap s) ∧
      (∀ l, l ∉ stored w → heap s' !! l = heap s !! l) ∧
      agree payload (heap s) (heap s') ∧ decodable as_traceback w = true
  | Raised x s' =>
      log s' = log s ∧ heap s !! x = None ∧ is_Some (heap s' !! x) ∧
      (∀ l, l ∉ stored w → l ≠ x → heap s' !! l = heap s !! l) ∧
      decodable as_traceback w = false
  | OutOfFuel => False
  | Dangling => well_formed (heap s) w = false
  end.
Proof.
  induction w as [t v k|t v k c IH] using wrapper_ind'; intros s.
  - rewrite get_exception_leaf, stored_leaf, well_formed_leaf, decodable_leaf.
    pose proof (attach_outcome v k s) as H.
    destruct (attach as_traceback v k s) as [v' s'|x s'| |]; [| |done|].
    + destruct H as (-> & Hlog & Hdom & Hfr & Hag & Hdec).
      repeat split; try done. intros l Hl. apply Hfr. set_solver.
    + destruct H as (Hlog & Hx & Hx' & Hfr & Hdec).
      repeat split; try done. intros l _ Hl. by apply Hfr.
    + apply bool_decide_eq_false. rewrite H. by intros [? ?].
  - rewrite get_exception_node, stored_node, well_formed_node, decodable_node.
    specialize (IH s).
    destruct (get_exception as_traceback c s) as [x s1|x s1| |]; [| |done|].
    + destruct IH as (-> & Hlog1 & Hdom1 & Hfr1 & Hag1 & Hdec1).
      unfold set___cause__, update.
      destruct (heap s1 !! v) as [o1|] eqn:Ho1.
      2: { apply andb_false_iff. left. apply bool_decide_eq_false.
           intros Hv%elem_of_dom. rewrite <- Hdom1 in Hv.
           apply elem_of_dom in Hv as [? ?]. congruence. }
      set (s2 := State _ _).
      assert (Hdom2 : dom (heap s2) = dom (heap s))
        by (simpl; rewrite dom_insert_existing; [done|by rewrite Ho1]).
      assert (Hag2 : agree payload (heap s) (heap s2))
        by (eapply agree_trans; [done|]; by eapply agree_insert).
      assert (Hfr2 : ∀ l, l ∉ v :: stored c → heap s2 !! l = heap s !! l).
      { intros l Hl. simpl. rewrite lookup_insert_ne by set_solver.
        apply Hfr1. set_solver. }
      pose proof (attach_outcome v k s2) as H.
      destruct (attach as_traceback v k s2) as [v' s'|x s'| |]; [| |done|].
      * destruct H as (-> & Hlog & Hdom & Hfr & Hag & Hdec).
        split; [done|]. split; [by rewrite Hlog|].
        split; [by rewrite Hdom|]. split.
        { intros l Hl. rewrite Hfr by set_solver. by apply Hfr2. }
        split; [by eapply agree_trans|]. by rewrite Hdec, Hdec1.
      * destruct H as (Hlog & Hx & Hx' & Hfr & Hdec).
        split; [by rewrite Hlog|]. split.
        { apply not_elem_of_dom. rewrite <- Hdom2. by apply not_elem_of_dom. }
        split; [done|]. split; [|by rewrite Hdec].
        intros l Hl Hne. rewrite Hfr by done. by apply Hfr2.
      * simpl in H. by rewrite lookup_insert_eq in H.
    + destruct IH as (Hlog & Hx & Hx' & Hfr & Hdec).
      split; [done|]. split; [done|]. split; [done|].
      split; [|by rewrite Hdec, andb_false_r].
      intros l Hl Hne. apply Hfr; [set_solver|done].
    + by rewrite IH, andb_false_r.
Qed.

(** [reraise], all outcomes, in terms of [get_exception]. *)
Lemma reraise_outcome w s :
  match get_exception as_traceback w (logged w s) with
  | Returned v s' =>
      reraise as_traceback w s =
      match heap s' !! v with
      | Some _ => Raised v s'
      | None => Dangling
      end
  | Raised x s' => reraise as_traceback w s = Raised x s'
  | OutOfFuel => reraise as_traceback w s = OutOfFuel
  | Dangling => reraise as_traceback w s = Dangling
  end.
Proof.
  unfold reraise. rewrite bind_run. unfold logger_debug. fold (logged w s).
  rewrite bind_run.
  destruct (get_exception as_traceback w (logged w s)) as [v s'|x s'| |];
    try done.
  rewrite bind_run. unfold deref.
  destruct (heap s' !! v) as [o|] eqn:Ho; [|done].
  by apply six_reraise_run.
Qed.

(** X4. Replay writes only to the exceptions the wrapper chain stores:
    whatever [reraise] signals, every other object that was in the store
    is exactly as it was. *)
Theorem reraise_touches_only_stored_objects w s x s' :
  reraise as_traceback w s = Raised x s' →
  ∀ l, l ∉ stored w → l ≠ x → heap s' !! l = heap s !! l.
Proof.
  intros Hrun l Hl Hx.
  pose proof (reraise_outcome w s) as Hre.
  pose proof (get_exception_outcome w (logged w s)) as Hget.
  destruct (get_exception as_traceback w (logged w s)) as [v s1|y s1| |];
    [| |done|congruence].
  - destruct Hget as (_ & _ & _ & Hfr & _).
    destruct (heap s1 !! v); [|congruence].
    rewrite Hre in Hrun. injection Hrun as <- <-. by apply Hfr.
  - destruct Hget as (_ & _ & _ & Hfr & _).
    rewrite Hre in Hrun. injection Hrun as <- <-. by apply Hfr.
Qed.

(** X5. The type is logged before anything can go wrong: whatever
    [reraise] signals, the stored failure or an exception of tblib, the
    log has grown by exactly one record, the one naming [e_type]. *)
Theorem reraise_logs_the_type_first w s x s' :
  reraise as_traceback w s = Raised x s' →
  log s' = log s ++ [Debug "Reraising exception of type {}" (e_type w)].
Proof.
  intros Hrun.
  pose proof (reraise_outcome w s) as Hre.
  pose proof (get_exception_outcome w (logged w s)) as Hget.
  destruct (get_exception as_traceback w (logged w s)) as [v s1|y s1| |];
    [| |done|congruence].
  - destruct Hget as (_ & Hlog & _).
    destruct (heap s1 !! v); [|congruence].
    rewrite Hre in Hrun. by injection Hrun as <- <-.
  - destruct Hget as (Hlog & _).
    rewrite Hre in Hrun. by injection Hrun as <- <-.
Qed.

(** X6. A token that does not decode replaces the failure: on a wrapper
    over existing objects with such a token, [reraise] signals a new
    object, the exception of tblib, and not the stored [e_value]. *)
Theorem reraise_with_undecodable_token w s :
  well_formed (heap s) w = true →
  decodable as_traceback w = false →
  ∃ x s', reraise as_traceback w s = Raised x s' ∧
          heap s !! x = None ∧ is_Some (heap s' !! x) ∧ x ≠ e_value w.
Proof.
  intros Hwf Hdec.
  pose proof (reraise_outcome w s) as Hre.
  pose proof (get_exception_outcome w (logged w s)) as Hget.
  destruct (get_exception as_traceback w (logged w s)) as [v s1|y s1| |];
    [| |done|simpl in Hget; congruence].
  - destruct Hget as (_ & _ & _ & _ & _ & Hok). congruence.
  - destruct Hget as (_ & Hy & Hy' & _). exists y, s1.
    split; [done|]. split; [done|]. split; [done|].
    intros ->. unfold well_formed in Hwf. rewrite links_head in Hwf.
    simpl in Hwf. apply andb_true_iff in Hwf as [[o Ho]%bool_decide_eq_true _].
    simpl in Hy. congruence.
Qed.

(** One level of [get_exception] on distinct stored objects. *)
Lemma attach_exact v k s o :
  heap s !! v = Some o →
  decodes as_traceback k = true →
  ∃ tb', attached k (__traceback__ o) = Some tb' ∧
         attach as_traceback v k s =
         Returned v (State (<[v := ExnObj (cls o) (args o) (attrs o)
                                          (__cause__ o) (__context__ o) tb']>
                              (heap s)) (log s)).
Proof.
  intros Ho Hdec. destruct k as [t|]; simpl in *.
  - destruct (as_traceback t) as [tb|c msg] eqn:E; [|done].
    exists (Some tb). split; [done|].
    exact (with_traceback_run v (Some tb) s o Ho).
  - exists (__traceback__ o). split; [done|].
    rewrite insert_id; [by destruct s|by destruct o].
Qed.

(** [get_exception] on a chain of distinct objects: every stored object
    ends as [replayed] says. *)
Lemma get_exception_replays : ∀ w s,
  NoDup (stored w) →
  well_formed (heap s) w = true →
  decodable as_traceback w = true →
  ∃ s', get_exception as_traceback w s = Returned (e_value w) s' ∧
        log s' = log s ∧
        (∀ l, l ∉ stored w → heap s' !! l = heap s !! l) ∧
        Forall (replayed (heap s) (heap s')) (links w).
Proof.
  induction w as [t v k|t v k c IH] using wrapper_ind'; intros s Hnd Hwf Hdec.
  - rewrite well_formed_leaf in Hwf. apply bool_decide_eq_true in Hwf as [o Ho].
    rewrite decodable_leaf in Hdec.
    destruct (attach_exact v k s o Ho Hdec) as (tb' & Htb & Hrun).
    rewrite get_exception_leaf, Hrun. eexists. split; [done|]. simpl.
    split; [done|]. split.
    { intros l Hl. rewrite stored_leaf in Hl.
      rewrite lookup_insert_ne; [done|set_solver]. }
    repeat constructor. exists o. eexists. simpl.
    split; [done|]. split; [by rewrite lookup_insert_eq|]. done.
  - rewrite stored_node in Hnd. apply NoDup_cons in Hnd as [Hv Hnd].
    rewrite well_formed_node in Hwf.
    apply andb_true_iff in Hwf as [[o Ho]%bool_decide_eq_true Hwf].
    rewrite decodable_node in Hdec. apply andb_true_iff in Hdec as [Hk Hdec].
    destruct (IH s Hnd Hwf Hdec) as (s1 & Hrun1 & Hlog1 & Hfr1 & Hall1).
    assert (Ho1 : heap s1 !! v = Some o) by (by rewrite Hfr1).
    rewrite get_exception_node, Hrun1.
    unfold set___cause__. rewrite (update_run _ _ _ _ Ho1).
    set (o2 := ExnObj _ _ _ _ _ _). set (s2 := State _ _).
    destruct (attach_exact v k s2 o2 (lookup_insert_eq _ _ _) Hk)
      as (tb' & Htb & Hrun).
    rewrite Hrun. eexists. split; [done|]. simpl.
    split; [done|]. split.
    { intros l Hl. rewrite stored_node in Hl.
      rewrite !lookup_insert_ne by set_solver. apply Hfr1. set_solver. }
    constructor.
    + exists o. eexists. simpl. split; [done|].
      split; [by rewrite lookup_insert_eq|]. done.
    + rewrite Forall_forall in Hall1. apply Forall_forall. intros j Hin.
      destruct (Hall1 j Hin) as (oj & oj' & Hj & Hj' & Hrest).
      exists oj, oj'. split; [done|]. split; [|done].
      assert (e_value j ≠ v).
      { intros <-. apply Hv. unfold stored. apply list_elem_of_fmap. eauto. }
      by rewrite !lookup_insert_ne.
Qed.

Lemma stored_head w : stored w = e_value w :: tail (stored w).
Proof. by destruct w. Qed.

Lemma replayed_chain : ∀ w h h',
  Forall (replayed h h') (links w) →
  last (stored w) ≫= cause_at h = Some None →
  has_chain h' (e_value w) (tail (stored w)) = true.
Proof.
  induction w as [t v k|t v k c IH] using wrapper_ind'; intros h h' Hall Hlast.
  - apply Forall_cons in Hall as [(o & o' & Ho & Ho' & _ & Hc & _) _].
    simpl in *. unfold cause_at in Hlast. rewrite Ho in Hlast.
    eapply has_chain_end; [done|]. rewrite Hc. by simplify_eq/=.
  - simpl links in Hall.
    apply Forall_cons in Hall as [(o & o' & Ho & Ho' & _ & Hc & _) Hall].
    rewrite stored_node in *. simpl tail. simpl in Hc, Ho'.
    rewrite (stored_head c) in Hlast |- *. rewrite last_cons_cons in Hlast.
    rewrite <- (stored_head c) in Hlast.
    eapply has_chain_step; eauto.
Qed.

(** X7. Replay rebuilds the chain of causes on the received exceptions:
    for a wrapper over distinct existing objects whose tokens decode,
    where the innermost exception has no cause of its own, the signalled
    exception has after [reraise] exactly the chain of the values the
    cause wrappers store, in the wrappers' order. *)
Theorem reraise_links_the_received_chain w s :
  NoDup (stored w) →
  well_formed (heap s) w = true →
  decodable as_traceback w = true →
  last (stored w) ≫= cause_at (heap s) = Some None →
  ∃ s', reraise as_traceback w s = Raised (e_value w) s' ∧
        has_chain (heap s') (e_value w) (tail (stored w)) = true.
Proof.
  intros Hnd Hwf Hdec Hlast.
  destruct (get_exception_replays w (logged w s) Hnd Hwf Hdec)
    as (s' & Hrun & _ & _ & Hall).
  exists s'. split; [|by eapply replayed_chain].
  apply (reraise_returned as_traceback); [done|].
  rewrite links_head in Hall.
  by apply Forall_cons in Hall as [(o & o' & _ & -> & _) _].
Qed.

Lemma has_chain_tail h cs : ∀ e x,
  has_chain h e cs = true → x ∈ e :: cs →
  ∃ suf, has_chain h x suf = true ∧ length suf ≤ length cs.
Proof.
  induction cs as [|c cs IH]; intros e x Hch Hx.
  - apply list_elem_of_singleton in Hx as ->. by exists [].
  - apply elem_of_cons in Hx as [->|Hx]; [by exists (c :: cs)|].
    apply has_chain_cons in Hch as (o & _ & _ & Hch).
    destruct (IH c x Hch Hx) as (suf & Hsuf & Hlen).
    exists suf. split; [done|]. simpl. lia.
Qed.

(** A chain of causes that ends visits no exception twice. *)
Lemma has_chain_NoDup h cs : ∀ e, has_chain h e cs = true → NoDup (e :: cs).
Proof.
  induction cs as [|c cs IH]; intros e Hch.
  - apply NoDup_singleton.
  - apply NoDup_cons. pose proof Hch as Hch0.
    apply has_chain_cons in Hch as (o & _ & _ & Hch). split; [|by apply IH].
    intros Hin. destruct (has_chain_tail h cs c e Hch Hin) as (suf & Hsuf & Hlen).
    pose proof (has_chain_functional h _ _ _ Hch0 Hsuf) as <-.
    simpl in Hlen. lia.
Qed.

Lemma fmap_eq_elem {A B} (f g : A → B) (l : list A) x :
  f <$> l = g <$> l → x ∈ l → f x = g x.
Proof.
  induction l as [|y l IH]; intros Heq Hx; [by apply elem_of_nil in Hx|].
  rewrite !fmap_cons in Heq. injection Heq as Hy Heq.
  apply elem_of_cons in Hx as [->|Hx]; auto.
Qed.

(** C2. Chain preservation. For an exception whose chain of causes ends,
    the wrapper capture builds has one link per exception of the chain,
    with the classes in the chain's order. Replay of that wrapper, on the
    store capture read or on the store [r] of the submitting side, where
    the exceptions of the chain are (under the same names) with the same
    classes and with whatever [__cause__] each has, the innermost none,
    signals the outermost exception with the chain of causes rebuilt:
    the same exceptions, in the same order, of the same classes. For A
    from B from C, the cause of the cause of the replayed exception is
    therefore C's object, of C's class. *)
Theorem capture_replay_preserves_chain fuel func a kw s e s1 o causes r :
  func a kw s = Raised e s1 →
  heap s1 !! e = Some o →
  issubclass (cls o) Exception = true →
  has_chain (heap s1) e causes = true →
  length causes < fuel →
  all_carried Traceback as_traceback (heap s1) (e :: causes) = true →
  class_at (heap r) <$> (e :: causes) = class_at (heap s1) <$> (e :: causes) →
  last (e :: causes) ≫= cause_at (heap r) = Some None →
  ∃ w s2,
    wrap_error Traceback fuel func a kw s = Returned (VWrapper w) s1 ∧
    length (links w) = length (e :: causes) ∧
    Some <$> (e_type <$> links w) = class_at (heap s1) <$> (e :: causes) ∧
    reraise as_traceback w r = Raised e s2 ∧
    has_chain (heap s2) e causes = true ∧
    class_at (heap s2) <$> (e :: causes) =
      class_at (heap s1) <$> (e :: causes).
Proof.
  intros Hf Ho Hsub Hch Hfuel Hcar Hcls Hlast.
  pose proof (all_carried_accepted Traceback as_traceback _ _ Hcar) as Hacc.
  destruct (wrap_error_captures Traceback fuel func a kw s e s1 o causes
              Hf Ho Hsub Hch Hfuel Hacc) as (w & Hrun & Hcap).
  pose proof (captures_values _ _ _ _ Hcap) as Hst. fold (stored w) in Hst.
  assert (Hv : e_value w = e).
  { rewrite stored_head in Hst. by injection Hst. }
  assert (Hnd : NoDup (stored w)) by (rewrite Hst; by eapply has_chain_NoDup).
  assert (Hwf : well_formed (heap (logged w r)) w = true).
  { unfold well_formed. apply forallb_forall. intros k Hk.
    apply bool_decide_eq_true.
    assert (Hin : e_value k ∈ e :: causes).
    { rewrite <- Hst. apply list_elem_of_fmap. exists k. split; [done|].
      by apply list_elem_of_In. }
    pose proof (fmap_eq_elem _ _ _ _ Hcls Hin) as Hk'.
    destruct (has_chain_tail _ _ _ _ Hch Hin) as (suf & Hsuf & _).
    apply has_chain_lookup in Hsuf as [ok Hok]. simpl.
    unfold class_at in Hk'. rewrite Hok in Hk'.
    by destruct (heap r !! e_value k). }
  assert (Hdec : decodable as_traceback w = true)
    by (by eapply captures_decodable).
  destruct (get_exception_replays w (logged w r) Hnd Hwf Hdec)
    as (s2 & Hget & _ & _ & Hall).
  pose proof (get_exception_outcome w (logged w r)) as Hout.
  rewrite Hget in Hout. destruct Hout as (_ & _ & _ & _ & Hag & _).
  simpl in Hall, Hag.
  exists w, s2. split; [done|]. split; [by eapply Forall2_length|].
  split; [by eapply captures_kinds|]. split.
  { rewrite <- Hv. apply (reraise_returned as_traceback); [done|].
    rewrite links_head in Hall.
    by apply Forall_cons in Hall as [(? & ? & _ & -> & _) _]. }
  split.
  { rewrite <- Hv. replace causes with (tail (stored w)) by (by rewrite Hst).
    apply (replayed_chain w (heap r)); [done|]. by rewrite Hst. }
  rewrite <- Hcls. apply list_fmap_ext. intros _ x _. symmetry.
  by apply agree_class.
Qed.

(** X8. Reconstruction attaches the carried tracebacks: for a wrapper
    over distinct existing objects whose tokens decode, when
    [get_exception] returns, every stored exception whose wrapper
    carries a token has the traceback the token decodes to, and every
    other stored exception keeps the traceback it had. *)
Theorem get_exception_attaches_the_decoded_tracebacks w s :
  NoDup (stored w) →
  well_formed (heap s) w = true →
  decodable as_traceback w = true →
  ∃ s', get_exception as_traceback w s = Returned (e_value w) s' ∧
        Forall (λ k, attached (e_traceback k) (tb_at (heap s) (e_value k)) =
                     Some (tb_at (heap s') (e_value k))) (links w).
Proof.
  intros Hnd Hwf Hdec.
  destruct (get_exception_replays w s Hnd Hwf Hdec)
    as (s' & Hrun & _ & _ & Hall).
  exists s'. split; [done|].
  eapply Forall_impl; [exact Hall|].
  intros k (o & o' & Ho & Ho' & _ & _ & Htb).
  unfold tb_at. by rewrite Ho, Ho'.
Qed.

Lemma replayed_settled h h' k : replayed h h' k → settled h' k.
Proof.
  intros (o & o' & _ & Ho' & _ & Hc & Htb). exists o'. split; [done|].
  split.
  - rewrite Hc. by destruct (cause k).
  - by destruct (e_traceback k) as [t|].
Qed.

Lemma settled_attach v k s o :
  heap s !! v = Some o →
  attached k (__traceback__ o) = Some (__traceback__ o) →
  attach as_traceback v k s = Returned v s.
Proof.
  intros Ho Htb.
  destruct (attach_exact v k s o Ho) as (tb' & Htb' & ->).
  { destruct k as [t|]; simpl in *; [|done]. by destruct (as_traceback t). }
  rewrite Htb in Htb'. injection Htb' as <-.
  rewrite insert_id; [by destruct s|by destruct o].
Qed.

(** On a store that already holds what a replay writes, [get_exception]
    changes nothing. *)
Lemma settled_fixed : ∀ w s,
  Forall (settled (heap s)) (links w) →
  get_exception as_traceback w s = Returned (e_value w) s.
Proof.
  induction w as [t v k|t v k c IH] using wrapper_ind'; intros s Hall.
  - apply Forall_cons in Hall as [(o & Ho & _ & Htb) _].
    rewrite get_exception_leaf. by eapply settled_attach.
  - simpl links in Hall. apply Forall_cons in Hall as [(o & Ho & Hc & Htb) Hall].
    rewrite get_exception_node, (IH s Hall). simpl in Ho, Hc, Htb.
    unfold set___cause__. rewrite (update_run _ _ _ _ Ho), <- Hc.
    rewrite insert_id by (by destruct o).
    replace (State (heap s) (log s)) with s by (by destruct s).
    by eapply settled_attach.
Qed.

(** X9. Reconstruction can be repeated: after a first [get_exception]
    on a wrapper over distinct existing objects whose tokens decode, a
    second one returns the same object and leaves the store exactly as
    the first one left it. *)
Theorem get_exception_twice w s :
  NoDup (stored w) →
  well_formed (heap s) w = true →
  decodable as_traceback w = true →
  ∃ s1, get_exception as_traceback w s = Returned (e_value w) s1 ∧
        get_exception as_traceback w s1 = Returned (e_value w) s1.
Proof.
  intros Hnd Hwf Hdec.
  destruct (get_exception_replays w s Hnd Hwf Hdec)
    as (s1 & Hrun & _ & _ & Hall).
  exists s1. split; [done|]. apply settled_fixed.
  eapply Forall_impl; [exact Hall|]. apply replayed_settled.
Qed.

Lemma faithful_accepts tb : faithful tb = true → accepts Traceback tb = true.
Proof.
  destruct tb as [t|]; [|done]. simpl. by destruct (Traceback t).
Qed.

Lemma all_faithful_accepted h es :
  all_faithful h es = true → all_accepted Traceback h es = true.
Proof.
  unfold all_faithful, all_accepted. rewrite !forallb_forall.
  intros H e He. apply faithful_accepts. auto.
Qed.

Lemma faithful_attached tb tok :
  faithful tb = true → token_of Traceback tb tok → attached tok tb = Some tb.
Proof.
  destruct tb as [t|], tok as [k|]; simpl; try done.
  intros H Hk. rewrite Hk in H. destruct (as_traceback k) as [t'|]; [|done].
  by apply bool_decide_eq_true in H as ->.
Qed.

(** The store a capture read is settled for the wrapper it built, when
    tblib is faithful. *)
Lemma captured_settled causes : ∀ w e h,
  has_chain h e causes = true →
  Forall2 (captures Traceback h) (links w) (e :: causes) →
  all_faithful h (e :: causes) = true →
  Forall (settled h) (links w).
Proof.
  induction causes as [|c0 cs IH]; intros [t v k cw] e h Hch Hcap Hfa;
    simpl links in Hcap;
    apply Forall2_cons in Hcap as [(Hv & _ & Htok) Hcap]; simpl in Hv, Htok;
    subst v; simpl in Hfa; apply andb_true_iff in Hfa as [Hf Hfa].
  - destruct cw as [cw|].
    { apply Forall2_nil_inv_r in Hcap. by apply links_nonempty in Hcap. }
    apply has_chain_nil in Hch as (o & Ho & Hc).
    repeat constructor. exists o. split; [done|]. split; [done|]. simpl.
    unfold tb_at in Hf, Htok. rewrite Ho in Hf, Htok. simpl in Hf, Htok.
    by apply faithful_attached.
  - destruct cw as [cw|]; [|by apply Forall2_nil_inv_l in Hcap].
    apply has_chain_cons in Hch as (o & Ho & Hc & Hch).
    simpl links. constructor.
    + exists o. split; [done|]. simpl.
      rewrite links_head in Hcap.
      apply Forall2_cons in Hcap as [(Hv & _) _].
      split; [by rewrite Hc, Hv|].
      unfold tb_at in Hf, Htok. rewrite Ho in Hf, Htok. simpl in Hf, Htok.
      by apply faithful_attached.
    + by apply (IH cw c0 h).
Qed.

(** X10. In one process, with a tblib that gives tracebacks back as it
    took them, capture followed by reconstruction gives back the
    exception the unit raised and leaves the store exactly as it was at
    the [except] clause: [get_exception] on the wrapper just built
    changes no slot of any exception. *)
Theorem capture_then_get_exception_restores_the_store
    fuel func a kw s e s1 o causes :
  func a kw s = Raised e s1 →
  heap s1 !! e = Some o →
  issubclass (cls o) Exception = true →
  has_chain (heap s1) e causes = true →
  length causes < fuel →
  all_faithful (heap s1) (e :: causes) = true →
  ∃ w, wrap_error Traceback fuel func a kw s = Returned (VWrapper w) s1 ∧
       get_exception as_traceback w s1 = Returned e s1.
Proof.
  intros Hf Ho Hsub Hch Hfuel Hfa.
  destruct (wrap_error_captures Traceback fuel func a kw s e s1 o causes)
    as (w & Hrun & Hcap); auto using all_faithful_accepted.
  exists w. split; [done|].
  assert (Hv : e_value w = e).
  { rewrite links_head in Hcap. by apply Forall2_cons in Hcap as [(Hv & _) _]. }
  rewrite <- Hv. apply settled_fixed. by eapply captured_settled.
Qed.

End Coverage.

(** ** The classes of the module *)

Section Classes.
Import classes.

(** *** The hierarchy *)

Lemma mro_suffix c : ∀ d, d ∈ mro c → mro d `suffix_of` mro c.
Proof.
  induction c as [| | | | | | | | | | | | | | | | | | |n b IH]; intros d Hd;
    simpl in Hd;
    try (repeat (apply elem_of_cons in Hd as [->|Hd]);
         [..|by apply elem_of_nil in Hd];
         first [by exists [] | by eexists [_] | by eexists [_; _]
               | by eexists [_; _; _] | by eexists [_; _; _; _]]).
  apply elem_of_cons in Hd as [->|Hd]; [done|].
  simpl. by apply suffix_cons_r, IH.
Qed.

Lemma issubclass_trans c d e :
  issubclass c d = true → issubclass d e = true → issubclass c e = true.
Proof.
  unfold issubclass. intros Hd%bool_decide_eq_true He%bool_decide_eq_true.
  apply bool_decide_eq_true. apply mro_suffix in Hd as [k ->].
  apply elem_of_app. by right.
Qed.

(** X11. Every instance of a class the module declares, or of a class
    derived from one anywhere, is a [ParslError] and an [Exception], so
    that the [except Exception] of the wrapper catches it; an instance of
    [BashExitFailure], [AppTimeout] or [BashAppNoReturn] is an
    [AppException] as well. *)
Theorem module_exceptions_are_parsl_errors s e d :
  d ∈ module_classes →
  isinstance s e d = true →
  isinstance s e ParslError = true ∧ isinstance s e Exception = true ∧
  (d ∈ [BashExitFailure; AppTimeout; BashAppNoReturn] →
   isinstance s e AppException = true).
Proof.
  unfold isinstance. destruct (heap s !! e) as [o|]; [|done].
  intros Hd Hinst.
  assert (Hp : issubclass d ParslError = true).
  { unfold module_classes in Hd.
    repeat (apply elem_of_cons in Hd as [->|Hd]); try reflexivity.
    by apply elem_of_nil in Hd. }
  split; [by eapply issubclass_trans|]. split.
  - eapply issubclass_trans; [done|]. by eapply issubclass_trans.
  - intros Ha. eapply issubclass_trans; [done|].
    repeat (apply elem_of_cons in Ha as [->|Ha]); try reflexivity.
    by apply elem_of_nil in Ha.
Qed.

(** *** Calling the classes *)

Lemma bind_params_positional names a :
  bind_params names a ∅ = if decide (length a = length names) then Some a else None.
Proof.
  unfold bind_params. rewrite dom_empty_L.
  destruct (decide (length a = length names)) as [Heq|Hne].
  - rewrite drop_ge by lia. rewrite bool_decide_eq_true_2 by (split; [lia|done]).
    simpl. by rewrite app_nil_r.
  - rewrite bool_decide_eq_false_2; [done|]. intros [Hle Hdom].
    destruct (drop (length a) names) as [|n rest] eqn:Hdrop.
    + apply (f_equal length) in Hdrop. rewrite length_drop in Hdrop.
      simpl in Hdrop. lia.
    + simpl in Hdom. set_solver.
Qed.

Lemma bind_params_keywords names a kw vs :
  bind_params names a kw = Some vs →
  dom kw ≠ ∅ → length a < length names ∧ length vs = length names.
Proof.
  unfold bind_params. case_bool_decide as H; [|done]. destruct H as [Hle Hdom].
  intros Hvs Hkw.
  destruct (mapM (λ n, kw !! n) (drop (length a) names)) as [ws|] eqn:Hm;
    [|done].
  simpl in Hvs. injection Hvs as <-. apply length_mapM in Hm.
  rewrite length_app, <- Hm, length_drop. split; [|lia].
  destruct (decide (length a < length names)); [done|].
  rewrite drop_ge in Hdom by lia. done.
Qed.

Lemma bind_params_length names a kw vs :
  bind_params names a kw = Some vs → length vs = length names.
Proof.
  unfold bind_params. case_bool_decide as H; [|done]. destruct H as [Hle Hdom].
  destruct (mapM (λ n, kw !! n) (drop (length a) names)) as [ws|] eqn:Hm;
    [|done].
  simpl. intros [= <-]. apply length_mapM in Hm.
  rewrite length_app, <- Hm, length_drop. lia.
Qed.

(** X12. The arguments an exception keeps rebuild it: for an object built
    by calling a class of the module, calling the class again on the
    object's [args] gives an object with the same [args] and attributes.
    For the three classes that pass their parameters to
    [super().__init__] this holds however the parameters were given; for
    [BashExitFailure], which does not, when they were given by position. *)
Theorem construct_rebuilds_from_args c a kw o :
  construct c a kw = Built o →
  c ≠ BashExitFailure ∨ dom kw = ∅ →
  construct c (args o) ∅ = Built o.
Proof.
  intros Hc Hpos.
  assert (Hkw : dom kw = ∅ → kw = ∅) by apply dom_empty_inv_L.
  destruct c; simpl in Hc; try done.
  1-3, 5: case_bool_decide; [|done]; injection Hc as <-; simpl;
    by rewrite dom_empty_L, bool_decide_eq_true_2.
  - destruct Hpos as [?|Hd]; [done|]. rewrite (Hkw Hd) in Hc.
    rewrite bind_params_positional in Hc.
    destruct a as [|x [|y [|? ?]]]; simpl in Hc; try done.
    injection Hc as <-. simpl. by rewrite bind_params_positional.
  - destruct (bind_params _ a kw) as [[|x [|? ?]]|]; try done.
    injection Hc as <-. simpl. by rewrite bind_params_positional.
  - destruct (bind_params _ a kw) as [[|x [|y [|? ?]]]|]; try done.
    injection Hc as <-. simpl. by rewrite bind_params_positional.
  - destruct (bind_params _ a kw) as [[|x [|y [|? ?]]]|]; try done.
    injection Hc as <-. simpl. by rewrite bind_params_positional.
Qed.

(** X13. A [BashExitFailure] built with a keyword argument keeps only
    the positional ones in [args], fewer than its two parameters, and
    calling the class again on these [args] is a [TypeError]. *)
Theorem BashExitFailure_by_keyword_cannot_be_rebuilt a kw o :
  construct BashExitFailure a kw = Built o →
  dom kw ≠ ∅ →
  args o = a ∧ length a < 2 ∧
  construct BashExitFailure (args o) ∅ = ArgumentError.
Proof.
  simpl. intros Hc Hkw.
  destruct (bind_params _ a kw) as [vs|] eqn:Hb; [|done].
  destruct (bind_params_keywords _ _ _ _ Hb Hkw) as [Hlen _].
  destruct vs as [|x [|y [|? ?]]]; try done. injection Hc as <-.
  split; [done|]. split; [done|]. simpl in *.
  rewrite bind_params_positional. simpl.
  destruct a as [|? [|? ?]]; simpl in *; [done|done|lia].
Qed.

(** *** Printing a [BashExitFailure] *)

Lemma chars_app s1 s2 :
  String.list_ascii_of_string (s1 +:+ s2) =
  String.list_ascii_of_string s1 ++ String.list_ascii_of_string s2.
Proof. induction s1 as [|c s1 IH]; simpl; [done|by rewrite IH]. Qed.

Lemma chars_inj s1 s2 :
  String.list_ascii_of_string s1 = String.list_ascii_of_string s2 → s1 = s2.
Proof.
  intros H. rewrite <- (String.string_of_list_ascii_of_string s1),
    <- (String.string_of_list_ascii_of_string s2). by rewrite H.
Qed.

(** A list is cut in one way only at its last occurrence of [x]. *)
Lemma last_pivot {A} (x : A) (l1 l2 d1 d2 : list A) :
  x ∉ d1 → x ∉ d2 → l1 ++ x :: d1 = l2 ++ x :: d2 → l1 = l2 ∧ d1 = d2.
Proof.
  revert d2. induction d1 as [|y d1 IH] using rev_ind;
    intros d2 H1 H2 Heq; destruct d2 as [|z d2 _] using rev_ind.
  - split; [|done]. by apply (app_inj_tail l1 l2 x x) in Heq as [-> _].
  - rewrite app_comm_cons, app_assoc in Heq.
    apply app_inj_tail in Heq as [_ ->]. set_solver.
  - rewrite app_comm_cons, app_assoc in Heq.
    apply app_inj_tail in Heq as [_ ->]. set_solver.
  - rewrite !app_comm_cons, !app_assoc in Heq.
    apply app_inj_tail in Heq as [Heq ->].
    destruct (IH d2) as [-> ->]; [set_solver|set_solver|done|done].
Qed.

Definition spaceless (s : string) : Prop :=
  " "%char ∉ String.list_ascii_of_string s.

Lemma pretty_N_go_spaceless x : ∀ s, spaceless s → spaceless (pretty_N_go x s).
Proof.
  induction (N.lt_wf_0 x) as [x _ IH]; intros s Hs.
  assert (x = 0 ∨ 0 < x)%N as [->|?] by lia.
  - by rewrite pretty_N_go_0.
  - rewrite pretty_N_go_step by done. apply IH; [by apply N.div_lt|].
    unfold spaceless. simpl. apply not_elem_of_cons. split; [|done].
    unfold pretty_N_char. by repeat case_match.
Qed.

Lemma pretty_N_spaceless (x : N) : spaceless (pretty x).
Proof.
  unfold pretty, pretty_N. case_decide.
  - unfold spaceless. simpl. set_solver.
  - apply pretty_N_go_spaceless. unfold spaceless. simpl. set_solver.
Qed.

Lemma pretty_Z_spaceless (z : Z) : spaceless (pretty z).
Proof.
  destruct z as [|p|p]; unfold pretty, pretty_Z.
  - unfold spaceless. simpl. set_solver.
  - apply pretty_N_spaceless.
  - unfold spaceless. rewrite chars_app. simpl. apply not_elem_of_cons.
    split; [done|]. apply pretty_N_spaceless.
Qed.

Lemma BashExitFailure_str_new app_name exitcode :
  BashExitFailure___str__ (BashExitFailure_new app_name exitcode) =
  Some ("bash_app " +:+ app_name +:+ " failed with unix exit code " +:+
        pretty exitcode).
Proof. reflexivity. Qed.

(** X14. The message of a [BashExitFailure] tells the application and
    the exit code apart: two such exceptions print the same text only if
    they have the same [app_name] and the same [exitcode]. *)
Theorem BashExitFailure_str_injective n1 c1 n2 c2 :
  BashExitFailure___str__ (BashExitFailure_new n1 c1) =
  BashExitFailure___str__ (BashExitFailure_new n2 c2) →
  n1 = n2 ∧ c1 = c2.
Proof.
  rewrite !BashExitFailure_str_new. intros [= H].
  apply (f_equal String.list_ascii_of_string) in H.
  change " failed with unix exit code "%string
    with (" failed with unix exit code" +:+ " ")%string in H.
  rewrite !chars_app in H. apply app_inv_head in H.
  set (M := String.list_ascii_of_string " failed with unix exit code") in H.
  change (String.list_ascii_of_string " ") with [" "%char] in H.
  rewrite <- !(app_assoc M) in H. rewrite !(app_assoc _ M) in H.
  apply (last_pivot " "%char) in H as [Hn Hc]; [| apply pretty_Z_spaceless..].
  apply app_inv_tail in Hn. split; [by apply chars_inj|].
  by apply (inj pretty), chars_inj.
Qed.

End Classes.

(** ** The further properties on concrete runs *)

Module MoreRuns.
Import Examples MoreExamples classes.

Lemma returned_wrapper_run :
  wrap_error Traceback 3 chained3 [] [] s0 =
    Returned (VWrapper (mkWrapper AppException 2 (token 8)
       (Some (mkWrapper ValueError 1 (token 6)
          (Some (mkWrapper OSError 0 (token 4) None))))))
      (state_after chained3) ∧
  (chained3 [] [] s0 =
     Returned (VWrapper (mkWrapper AppException 2 (token 8)
       (Some (mkWrapper ValueError 1 (token 6)
          (Some (mkWrapper OSError 0 (token 4) None))))))
       (state_after chained3) ∨
   ∃ e w, chained3 [] [] s0 = Raised e (state_after chained3) ∧
          isinstance (state_after chained3) e Exception = true ∧
          VWrapper (mkWrapper AppException 2 (token 8)
            (Some (mkWrapper ValueError 1 (token 6)
               (Some (mkWrapper OSError 0 (token 4) None))))) = VWrapper w ∧
          e_value w = e ∧
          class_at (heap (state_after chained3)) e = Some (e_type w)).
Proof.
  split; [reflexivity|].
  apply (wrap_error_returns_leave_the_store Traceback 3 chained3 [] [] s0).
  reflexivity.
Defined.

Lemma escaping_run :
  wrap_error Traceback_raising 1 div0 [] [] s0 =
    Raised 1 (state_after (wrap_error Traceback_raising 1 div0)) ∧
  ∃ e s1, div0 [] [] s0 = Raised e s1 ∧
    ((isinstance s1 e Exception = false ∧ 1 = e ∧
      state_after (wrap_error Traceback_raising 1 div0) = s1) ∨
     (isinstance s1 e Exception = true ∧ heap s1 !! 1 = None ∧
      log (state_after (wrap_error Traceback_raising 1 div0)) = log s1 ∧
      ∃ o, heap (state_after (wrap_error Traceback_raising 1 div0)) =
             <[1 := o]> (heap s1) ∧
           (cls o = RecursionError ∨
            ∃ t c msg, Traceback_raising t = tblib.Raises c msg ∧ cls o = c))).
Proof.
  split; [reflexivity|].
  apply (wrap_error_raises_only Traceback_raising 1 div0 [] [] s0).
  reflexivity.
Defined.

Lemma tokens_run :
  tb_at (heap (state_after cause_never_raised)) 0 = None ∧
  ∃ w, wrap_error Traceback 2 cause_never_raised [] [] s0 =
         Returned (VWrapper w) (state_after cause_never_raised) ∧
       Forall2 (λ k x,
                  token_of Traceback
                    (tb_at (heap (state_after cause_never_raised)) x)
                    (e_traceback k) ∧
                  (e_traceback k = None ↔
                   tb_at (heap (state_after cause_never_raised)) x = None))
               (links w) [1; 0].
Proof.
  split; [reflexivity|].
  apply (wrap_error_stores_each_token Traceback 2 cause_never_raised [] [] s0
           1 (state_after cause_never_raised) (late 0) [0]);
    [reflexivity..|simpl; lia|reflexivity].
Defined.

Lemma bystander_run :
  reraise as_traceback received_chain received_chain_state =
    Raised 0 (replay_state as_traceback received_chain received_chain_state) ∧
  heap (replay_state as_traceback received_chain received_chain_state) !! 3 =
    Some division_by_zero.
Proof.
  split; [reflexivity|].
  rewrite (reraise_touches_only_stored_objects as_traceback received_chain
             received_chain_state 0
             (replay_state as_traceback received_chain received_chain_state));
    [reflexivity|reflexivity| |lia].
  unfold stored. simpl. set_solver.
Defined.

Lemma logged_type_run :
  reraise as_traceback_raising received received_state =
    Raised 1 (replay_state as_traceback_raising received received_state) ∧
  log (replay_state as_traceback_raising received received_state) =
    [Debug "Reraising exception of type {}" ZeroDivisionError].
Proof.
  split; [reflexivity|].
  apply (reraise_logs_the_type_first as_traceback_raising received
           received_state 1). reflexivity.
Defined.

Lemma undecodable_token_run :
  decodable as_traceback_raising received = false ∧
  ∃ x s', reraise as_traceback_raising received received_state = Raised x s' ∧
          heap received_state !! x = None ∧ is_Some (heap s' !! x) ∧
          x ≠ e_value received.
Proof.
  split; [reflexivity|].
  apply (reraise_with_undecodable_token as_traceback_raising received
           received_state); reflexivity.
Defined.

Lemma linked_chain_run :
  stored received_chain = [0; 1; 2] ∧
  ∃ s', reraise as_traceback received_chain received_chain_state =
          Raised 0 s' ∧
        has_chain (heap s') 0 [1; 2] = true.
Proof.
  split; [reflexivity|].
  apply (reraise_links_the_received_chain as_traceback received_chain
           received_chain_state); [|reflexivity..].
  apply (bool_decide_unpack _). by vm_compute.
Defined.

Lemma three_deep_chain_run :
  has_chain (heap submitting_side) 2 [1; 0] = false ∧
  ∃ w s2,
    wrap_error Traceback 3 chained3 [] [] s0 =
      Returned (VWrapper w) (state_after chained3) ∧
    length (links w) = 3 ∧
    Some <$> (e_type <$> links w) =
      [Some AppException; Some ValueError; Some OSError] ∧
    reraise as_traceback w submitting_side = Raised 2 s2 ∧
    has_chain (heap s2) 2 [1; 0] = true ∧
    class_at (heap s2) <$> [2; 1; 0] =
      [Some AppException; Some ValueError; Some OSError].
Proof.
  split; [reflexivity|].
  apply (capture_replay_preserves_chain Traceback as_traceback 3 chained3
           [] [] s0 2 (state_after chained3) (exn_A 1) [1; 0] submitting_side);
    [reflexivity..|simpl; lia|reflexivity|reflexivity|reflexivity].
Defined.

Lemma attached_tracebacks_run :
  ∃ s', get_exception as_traceback received_chain received_chain_state =
          Returned (e_value received_chain) s' ∧
        Forall (λ k, attached as_traceback (e_traceback k)
                       (tb_at (heap received_chain_state) (e_value k)) =
                     Some (tb_at (heap s') (e_value k)))
               (links received_chain).
Proof.
  apply (get_exception_attaches_the_decoded_tracebacks as_traceback
           received_chain received_chain_state); [|reflexivity..].
  apply (bool_decide_unpack _). by vm_compute.
Defined.

Lemma get_exception_twice_run :
  ∃ s1, get_exception as_traceback received_chain received_chain_state =
          Returned (e_value received_chain) s1 ∧
        get_exception as_traceback received_chain s1 =
          Returned (e_value received_chain) s1.
Proof.
  apply (get_exception_twice as_traceback received_chain received_chain_state);
    [|reflexivity..].
  apply (bool_decide_unpack _). by vm_compute.
Defined.

Lemma same_process_run :
  all_faithful Traceback as_traceback (heap (state_after chained3)) [2; 1; 0]
    = true ∧
  ∃ w, wrap_error Traceback 3 chained3 [] [] s0 =
         Returned (VWrapper w) (state_after chained3) ∧
       get_exception as_traceback w (state_after chained3) =
         Returned 2 (state_after chained3).
Proof.
  split; [reflexivity|].
  apply (capture_then_get_exception_restores_the_store Traceback as_traceback 3
           chained3 [] [] s0 2 (state_after chained3) (exn_A 1) [1; 0]);
    [reflexivity..|simpl; lia|reflexivity].
Defined.

Lemma user_subclass_run :
  isinstance walltime_state 0 AppTimeout = true ∧
  isinstance walltime_state 0 ParslError = true ∧
  isinstance walltime_state 0 Exception = true ∧
  (AppTimeout ∈ [BashExitFailure; AppTimeout; BashAppNoReturn] →
   isinstance walltime_state 0 AppException = true).
Proof.
  split; [reflexivity|].
  apply (module_exceptions_are_parsl_errors walltime_state 0 AppTimeout);
    [|reflexivity].
  apply (bool_decide_unpack _). by vm_compute.
Defined.

Lemma rebuilt_from_args_run :
  construct BashAppNoReturn [] by_keyword_reason =
    Built (BashAppNoReturn_new "no output") ∧
  construct BashAppNoReturn (args (BashAppNoReturn_new "no output")) ∅ =
    Built (BashAppNoReturn_new "no output").
Proof.
  split; [reflexivity|].
  apply (construct_rebuilds_from_args BashAppNoReturn [] by_keyword_reason);
    [reflexivity|by left].
Defined.

Lemma keyword_exit_run :
  construct BashExitFailure [] by_keyword_exit =
    Built (new BashExitFailure [] (attrs (BashExitFailure_new "echo" 2))) ∧
  args (new BashExitFailure [] (attrs (BashExitFailure_new "echo" 2))) = [] ∧
  0 < 2 ∧
  construct BashExitFailure
    (args (new BashExitFailure [] (attrs (BashExitFailure_new "echo" 2)))) ∅ =
    ArgumentError.
Proof.
  split; [reflexivity|].
  apply (BashExitFailure_by_keyword_cannot_be_rebuilt [] by_keyword_exit);
    [reflexivity|]. unfold by_keyword_exit. rewrite !dom_insert_L. set_solver.
Defined.

Lemma same_message_run :
  BashExitFailure___str__ (BashExitFailure_new "echo" 2) =
    Some "bash_app echo failed with unix exit code 2"%string ∧
  ("echo"%string = "echo"%string ∧ 2%Z = 2%Z).
Proof.
  split; [reflexivity|].
  apply (BashExitFailure_str_injective "echo" 2 "echo" 2). reflexivity.
Defined.

End MoreRuns.
